(** * raytraceInAWeekend: the Viewport surface and the render pass

    A shallow embedding of [src/Viewport.ts] (class [Viewport]) and of
    [src/index.ts] ([setup], [render]), together with the part of the
    browser's canvas interface those two files call.

    Conventions.
    - A JavaScript number that holds a pixel count, a loop counter or a
      buffer index is an integer and is modelled in [Z]; [NaN] is kept as a
      separate value where [parseInt] can produce it.  This is exact as
      long as the integers stay in the range that binary64 numbers
      represent exactly and print in decimal (below [2^53]), which the
      sizes and indices of a canvas do.  The three channel values of the
      gradient are computed on IEEE binary64 numbers ([PrimFloat]), as the
      source does.
    - A [Uint8ClampedArray] is a [list Z] of bytes; a store clamps its
      value to [0..255] and a store outside the array does nothing.
    - The canvas, its style, its bitmap and the state of its 2d context are
      a record that every operation takes and returns.  The record also
      keeps the list of buffers handed to [putImageData]; that list is
      ghost state, it is only there so that theorems can speak about what
      was committed. *)

From Stdlib Require Import ZArith Lia Ascii String.
From Stdlib Require Import PrimFloat FloatOps SpecFloat Uint63.
From stdpp Require Import base tactics option list.
From Equations Require Import Equations.

Set Warnings "-inexact-float".
Local Open Scope Z_scope.

(* ===================================================================== *)
(** ** The host language *)
(* ===================================================================== *)

Module JS.

(** What can be thrown: an [Error] built by the program, or an exception
    of the platform, named as the platform names it. *)
Inductive exn : Type :=
| Error (message : string)
| DOMException (name : string).

(** How a call ends. *)
Inductive completion (A : Type) : Type :=
| Normal (a : A)
| Throw (e : exn).
Arguments Normal {A} a.
Arguments Throw {A} e.

(** A number that is either an integer or [NaN]. *)
Inductive number : Type :=
| Int (z : Z)
| NaN.

(** *** [String(n)] for an integer [n]: the decimal numeral *)

Definition digit_char (d : Z) : ascii := ascii_of_nat (48 + Z.to_nat d).

Equations? digits (n : Z) (acc : string) : string by wf (Z.to_nat n) lt :=
  digits n acc :=
    if decide (n < 10) then String (digit_char n) acc
    else digits (n / 10) (String (digit_char (n mod 10)) acc).
Proof.
  assert (n / 10 < n) by (apply Z.div_lt; lia).
  assert (0 <= n / 10) by (apply Z.div_pos; lia).
  lia.
Qed.

Definition Number_toString (n : Z) : string :=
  if n <? 0 then String "-"%char (digits (- n) EmptyString)
  else digits n EmptyString.

(** *** [parseInt(s, 10)] *)

Definition digit_value (c : ascii) : option Z :=
  let n := Z.of_nat (nat_of_ascii c) in
  if (48 <=? n) && (n <=? 57) then Some (n - 48) else None.

Definition is_white_space (c : ascii) : bool :=
  let n := nat_of_ascii c in
  (n =? 32)%nat || ((9 <=? n)%nat && (n <=? 13)%nat).

Fixpoint skip_white_space (s : string) : string :=
  match s with
  | String c s' => if is_white_space c then skip_white_space s' else s
  | EmptyString => s
  end.

(** The value of the longest prefix of decimal digits, read left to
    right on top of [acc]. *)
Fixpoint parse_digits (s : string) (acc : Z) : Z :=
  match s with
  | String c s' =>
      match digit_value c with
      | Some d => parse_digits s' (10 * acc + d)
      | None => acc
      end
  | EmptyString => acc
  end.

Definition parse_unsigned (s : string) : number :=
  match s with
  | String c _ =>
      match digit_value c with
      | Some _ => Int (parse_digits s 0)
      | None => NaN
      end
  | EmptyString => NaN
  end.

Definition number_opp (n : number) : number :=
  match n with Int z => Int (- z) | NaN => NaN end.

Definition parseInt (s : string) : number :=
  match skip_white_space s with
  | String "-"%char s' => number_opp (parse_unsigned s')
  | String "+"%char s' => parse_unsigned s'
  | s' => parse_unsigned s'
  end.

(** *** Numbers of the gradient: binary64 *)

(** An integer of absolute value below [2^53] as a binary64 number. *)
Definition float_of_Z (z : Z) : float :=
  if z <? 0 then PrimFloat.opp (PrimFloat.of_uint63 (Uint63.of_Z (- z)))
  else PrimFloat.of_uint63 (Uint63.of_Z z).

(** [Math.trunc] of a finite number, as an integer.  [NaN] and the
    infinities have no integer value; they are mapped to [0], which is
    also what a clamped byte array stores for [NaN]. *)
Definition Math_trunc (f : float) : Z :=
  match Prim2SF f with
  | S754_finite s m e =>
      let a := match e with
               | Z0 => Zpos m
               | Zpos p => Z.shiftl (Zpos m) (Zpos p)
               | Zneg p => Z.shiftr (Zpos m) (Zpos p)
               end in
      if s then - a else a
  | _ => 0
  end.

(** *** [Uint8ClampedArray] *)

Definition ToUint8Clamp (v : Z) : Z := Z.max 0 (Z.min 255 v).

(** [data[index] = v]: clamped, and ignored outside the array. *)
Definition array_set (data : list Z) (index : Z) (v : Z) : list Z :=
  if 0 <=? index then <[Z.to_nat index := ToUint8Clamp v]> data else data.

(** [data[index]]; [None] is [undefined]. *)
Definition array_get (data : list Z) (index : Z) : option Z :=
  if 0 <=? index then data !! Z.to_nat index else None.

End JS.
Import JS.

(* ===================================================================== *)
(** ** The canvas interface used by the program *)
(* ===================================================================== *)

Module DOM.

(** [ImageData]: [width], [height] and [data], four bytes per pixel
    (red, green, blue, alpha), rows from the top, left to right. *)
Record ImageData : Type := mkImageData {
  img_width : nat;
  img_height : nat;
  img_data : list Z
}.

(** An opaque colour: red, green, blue. *)
Definition color : Type := (Z * Z * Z)%type.

(** The [<color>] values the model knows: five opaque named colours.
    Any other string is not a colour here, which is right for strings
    that are no CSS colour and leaves out the other CSS colours; nothing
    is stated below about [fill] with a style outside these names. *)
Definition css_color (s : string) : option color :=
  if String.eqb s "white" then Some (255, 255, 255)
  else if String.eqb s "black" then Some (0, 0, 0)
  else if String.eqb s "red" then Some (255, 0, 0)
  else if String.eqb s "lime" then Some (0, 255, 0)
  else if String.eqb s "blue" then Some (0, 0, 255)
  else None.

(** A canvas element with its 2d context.  The backing store is as large
    as asked for and keeps the bytes written to it unchanged; the style
    holds the strings assigned to it (sizes are pixel counts, so these are
    valid lengths).
    - [style_width], [style_height]: [canvas.style.width/height];
    - [canvas_width], [canvas_height]: the size of the backing store
      ([canvas.width/height], unsigned);
    - [bitmap]: the backing store, [4 * canvas_width * canvas_height]
      bytes;
    - [context2d]: whether [getContext("2d")] yields a context;
    - [fillStyle], [scale_x], [scale_y]: the drawing state of that
      context (the transform is a scaling throughout this program);
    - [committed]: ghost, the arguments of [putImageData] so far. *)
Record HTMLCanvasElement : Type := mkCanvas {
  style_width : string;
  style_height : string;
  canvas_width : nat;
  canvas_height : nat;
  bitmap : list Z;
  context2d : bool;
  fillStyle : color;
  scale_x : Z;
  scale_y : Z;
  committed : list ImageData
}.

Definition set_style_width (s : string) (c : HTMLCanvasElement) :=
  mkCanvas s (style_height c) (canvas_width c) (canvas_height c)
    (bitmap c) (context2d c) (fillStyle c) (scale_x c) (scale_y c)
    (committed c).

Definition set_style_height (s : string) (c : HTMLCanvasElement) :=
  mkCanvas (style_width c) s (canvas_width c) (canvas_height c)
    (bitmap c) (context2d c) (fillStyle c) (scale_x c) (scale_y c)
    (committed c).

Definition set_bitmap (b : list Z) (c : HTMLCanvasElement) :=
  mkCanvas (style_width c) (style_height c) (canvas_width c)
    (canvas_height c) b (context2d c) (fillStyle c) (scale_x c)
    (scale_y c) (committed c).

Definition transparent_black (w h : nat) : list Z :=
  replicate (4 * w * h) 0.

(** [canvas.width = w]: the backing store is resized and cleared to
    transparent black, and the context goes back to its default state
    (black fill style, identity transform). *)
Definition set_canvas_width (w : Z) (c : HTMLCanvasElement) :=
  mkCanvas (style_width c) (style_height c) (Z.to_nat w) (canvas_height c)
    (transparent_black (Z.to_nat w) (canvas_height c))
    (context2d c) (0, 0, 0) 1 1 (committed c).

(** [canvas.height = h], likewise. *)
Definition set_canvas_height (h : Z) (c : HTMLCanvasElement) :=
  mkCanvas (style_width c) (style_height c) (canvas_width c) (Z.to_nat h)
    (transparent_black (canvas_width c) (Z.to_nat h))
    (context2d c) (0, 0, 0) 1 1 (committed c).

(** [ctx.scale(x, y)]. *)
Definition scale (x y : Z) (c : HTMLCanvasElement) :=
  mkCanvas (style_width c) (style_height c) (canvas_width c)
    (canvas_height c) (bitmap c) (context2d c) (fillStyle c)
    (scale_x c * x) (scale_y c * y) (committed c).

(** [ctx.fillStyle = s]; a string that is not a colour is ignored. *)
Definition set_fillStyle (s : string) (c : HTMLCanvasElement) :=
  match css_color s with
  | Some col =>
      mkCanvas (style_width c) (style_height c) (canvas_width c)
        (canvas_height c) (bitmap c) (context2d c) col (scale_x c)
        (scale_y c) (committed c)
  | None => c
  end.

(** Every byte of the backing store recomputed from its pixel column,
    pixel row, channel and old value. *)
Definition repaint (px : nat -> nat -> nat -> Z -> Z)
    (c : HTMLCanvasElement) : list Z :=
  imap (fun n old =>
          px ((n / 4) mod canvas_width c)%nat ((n / 4) / canvas_width c)%nat
             (n mod 4)%nat old)
       (bitmap c).

(** Whether the device pixel [(x, y)] lies in the rectangle
    [(0, 0, w, h)] of user space under the current scaling. *)
Definition in_rect (c : HTMLCanvasElement) (w h : Z) (x y : nat) : bool :=
  (Z.of_nat x <? w * scale_x c) && (Z.of_nat y <? h * scale_y c).

Definition color_byte (col : color) (channel : nat) : Z :=
  match col, channel with
  | (r, _, _), O => r
  | (_, g, _), S O => g
  | (_, _, b), S (S O) => b
  | _, _ => 255
  end.

(** [ctx.fillRect(0, 0, w, h)] with an opaque fill style. *)
Definition fillRect (w h : Z) (c : HTMLCanvasElement) :=
  set_bitmap
    (repaint (fun x y ch old =>
                if in_rect c w h x y then color_byte (fillStyle c) ch
                else old) c)
    c.

(** [ctx.clearRect(0, 0, w, h)]. *)
Definition clearRect (w h : Z) (c : HTMLCanvasElement) :=
  set_bitmap
    (repaint (fun x y ch old => if in_rect c w h x y then 0 else old) c)
    c.

(** One byte of the pixel [(x, y)]; outside the canvas a pixel reads as
    transparent black. *)
Definition pixel_byte (c : HTMLCanvasElement) (x y ch : nat) : Z :=
  if (x <? canvas_width c)%nat && (y <? canvas_height c)%nat
  then default 0 (bitmap c !! (4 * (y * canvas_width c + x) + ch)%nat)
  else 0.

(** [ctx.getImageData(0, 0, sw, sh)]: a copy of the rectangle; an empty
    rectangle is an [IndexSizeError].  The transform is not applied. *)
Definition getImageData (sw sh : nat) (c : HTMLCanvasElement)
  : completion ImageData :=
  if ((sw =? 0)%nat || (sh =? 0)%nat)%bool
  then Throw (DOMException "IndexSizeError")
  else Normal
         (mkImageData sw sh
            ((fun n => pixel_byte c ((n / 4) mod sw)%nat ((n / 4) / sw)%nat
                                  (n mod 4)%nat)
               <$> seq 0 (4 * sw * sh))).

(** [ctx.putImageData(img, 0, 0)]: the pixels of [img] are copied to
    the canvas with their top-left corner at the origin; what falls
    outside the canvas is dropped and canvas pixels outside the image
    are kept.  The sizes are not compared and the call has no failure
    for them.  The transform is not applied.  The bytes are kept as
    given, which is what a canvas does for a pixel of alpha 255; for a
    pixel of lower alpha a canvas may read back other colour bytes, so
    what is stated below about reading back written pixels is stated for
    opaque ones. *)
Definition putImageData (img : ImageData) (c : HTMLCanvasElement)
  : completion HTMLCanvasElement :=
  let b :=
    repaint (fun x y ch old =>
               if (x <? img_width img)%nat && (y <? img_height img)%nat
               then default old
                      (img_data img !! (4 * (y * img_width img + x) + ch)%nat)
               else old) c in
  Normal
    (mkCanvas (style_width c) (style_height c) (canvas_width c)
       (canvas_height c) b (context2d c) (fillStyle c) (scale_x c)
       (scale_y c) (committed c ++ [img])).

End DOM.
Import DOM.

(* ===================================================================== *)
(** ** [src/Viewport.ts]: class [Viewport] *)
(* ===================================================================== *)

Module Viewport.

(** The object holds the canvas; its [ctx] field is the 2d context of
    that same canvas, whose state is kept in the canvas record. *)
Record t : Type := mk { canvas : HTMLCanvasElement }.

(** [get width()]: [parseInt(this.canvas.style.width || "", 10)]. *)
Definition width (v : t) : number := parseInt (style_width (canvas v)).

(** [get height()]. *)
Definition height (v : t) : number := parseInt (style_height (canvas v)).

(** [clear()]. *)
Definition clear (v : t) : t :=
  let c := canvas v in
  mk (clearRect (Z.of_nat (canvas_width c)) (Z.of_nat (canvas_height c)) c).

(** [fill(fillStyle)]. *)
Definition fill (style : string) (v : t) : t :=
  let c := set_fillStyle style (canvas v) in
  mk (fillRect (Z.of_nat (canvas_width c)) (Z.of_nat (canvas_height c)) c).

(** [get imageData()]. *)
Definition imageData (v : t) : completion ImageData :=
  let c := canvas v in
  getImageData (canvas_width c) (canvas_height c) c.

(** [set imageData(imageData)]. *)
Definition set_imageData (img : ImageData) (v : t) : completion t :=
  match putImageData img (canvas v) with
  | Normal c => Normal (mk c)
  | Throw e => Throw e
  end.

(** [setSize(width, height, pixelRatio)]. *)
Definition setSize (width height pixelRatio : Z) (v : t) : t :=
  let c := canvas v in
  let c := set_style_width (Number_toString width ++ "px") c in
  let c := set_style_height (Number_toString height ++ "px") c in
  let c := set_canvas_width (width * pixelRatio) c in
  let c := set_canvas_height (height * pixelRatio) c in
  mk (scale pixelRatio pixelRatio c).

(** [constructor(canvas, width, height, pixelRatio)]; [None] is a
    missing canvas. *)
Definition constructor (canvas : option HTMLCanvasElement)
    (width height pixelRatio : Z) : completion t :=
  match canvas with
  | None => Throw (Error "You must provide a valid Canvas to the Viewport")
  | Some c =>
      if context2d c
      then Normal (fill "white" (setSize width height pixelRatio (mk c)))
      else Throw (Error "Could not get a valid 2d context for the canvas")
  end.

(** [static create(canvas, width, height, pixelRatio)]. *)
Definition create (canvas : option HTMLCanvasElement)
    (width height pixelRatio : Z) : completion t :=
  constructor canvas width height pixelRatio.

End Viewport.

(* ===================================================================== *)
(** ** [src/index.ts] *)
(* ===================================================================== *)

(** The result of a per-pixel colour computation: three channel values,
    or an exception. *)
Definition colorFn : Type := Z -> Z -> Z -> Z -> completion (Z * Z * Z).

(** The local variables of [render] that the loops change: the bytes of
    [id.data] and the write cursor [index].  [calls] is ghost: one entry
    [(i, j, index)] per evaluation of the colour computation, oldest
    first, with the cursor at that moment. *)
Record LoopState : Type := mkLoop {
  data : list Z;
  index : Z;
  calls : list (Z * Z * Z)
}.

Section RenderLoop.

(** The colour computation of the loop body and the two bounds. *)
Variable color_at : colorFn.
Variables nx ny : Z.

(** The body of the inner loop.  The pending exception, if any, comes
    with the state at the moment it was thrown. *)
Definition body (i j : Z) (st : LoopState) : LoopState * option exn :=
  let called := calls st ++ [(i, j, index st)] in
  match color_at i j nx ny with
  | Throw e => (mkLoop (data st) (index st) called, Some e)
  | Normal (ir, ig, ib) =>
      let d := array_set (data st) (index st) ir in
      let d := array_set d (index st + 1) ig in
      let d := array_set d (index st + 2) ib in
      (mkLoop d (index st + 4) called, None)
  end.

(** [for (let i = ...; i < nx; i++) body]. *)
Equations? inner (j i : Z) (st : LoopState) : LoopState * option exn
  by wf (Z.to_nat (nx - i)) lt :=
  inner j i st :=
    if decide (i < nx) then
      match body i j st with
      | (st', Some e) => (st', Some e)
      | (st', None) => inner j (i + 1) st'
      end
    else (st, None).
Proof. lia. Qed.

(** [for (let j = ...; j >= 0; j--) for (let i = 0; i < nx; i++) body]. *)
Equations? outer (j : Z) (st : LoopState) : LoopState * option exn
  by wf (Z.to_nat (j + 1)) lt :=
  outer j st :=
    if decide (j >= 0) then
      match inner j 0 st with
      | (st', Some e) => (st', Some e)
      | (st', None) => outer (j - 1) st'
      end
    else (st, None).
Proof. lia. Qed.

End RenderLoop.

(** The two loops of [render] on the numbers [nx] and [ny] read from the
    viewport.  With a [NaN] bound no loop test ever holds, so the body is
    not run. *)
Definition scan (color_at : colorFn) (nx ny : number) (st : LoopState)
  : LoopState * option exn :=
  match nx, ny with
  | Int nx, Int ny => outer color_at nx ny (ny - 1) st
  | _, _ => (st, None)
  end.

(** What one call of [render] leaves behind: the viewport, how the call
    ended, and (ghost) the colour evaluations it made. *)
Record Rendered : Type := mkRendered {
  viewport_after : Viewport.t;
  outcome : completion unit;
  evaluations : list (Z * Z * Z)
}.

(** [render], with the colour computation of the loop body as a
    parameter. *)
Definition render_with (color_at : colorFn) (viewport : Viewport.t)
  : Rendered :=
  let nx := Viewport.width viewport in
  let ny := Viewport.height viewport in
  match Viewport.imageData viewport with
  | Throw e => mkRendered viewport (Throw e) []
  | Normal id =>
      match scan color_at nx ny (mkLoop (img_data id) 0 []) with
      | (st, Some e) => mkRendered viewport (Throw e) (calls st)
      | (st, None) =>
          let id := mkImageData (img_width id) (img_height id) (data st) in
          match Viewport.set_imageData id viewport with
          | Normal v => mkRendered v (Normal tt) (calls st)
          | Throw e => mkRendered viewport (Throw e) (calls st)
          end
      end
  end.

(** The colour computation written in the body of [render]. *)
Definition gradient : colorFn :=
  fun i j nx ny =>
    let r := (float_of_Z i / float_of_Z nx)%float in
    let g := (float_of_Z j / float_of_Z ny)%float in
    let b := 0.2%float in
    let ir := Math_trunc (255.99 * r)%float in
    let ig := Math_trunc (255.99 * g)%float in
    let ib := Math_trunc (255.99 * b)%float in
    Normal (ir, ig, ib).

(** [render()]. *)
Definition render (viewport : Viewport.t) : Rendered :=
  render_with gradient viewport.

(** The page as [setup] sees it: the element with id [canvas], if any,
    whether there is an element with id [renderBtn], and
    [window.devicePixelRatio] ([None]: no [window], or no such property). *)
Record Document : Type := mkDocument {
  canvas_element : option HTMLCanvasElement;
  render_button : bool;
  window_devicePixelRatio : option Z
}.

(** The module constant [devicePixelRatio] of [Viewport.ts]: the ratio of
    the window when there is one and it is not zero, else [1]. *)
Definition devicePixelRatio (doc : Document) : Z :=
  match window_devicePixelRatio doc with
  | Some r => if r =? 0 then 1 else r
  | None => 1
  end.

Definition dquote : string := String (ascii_of_nat 34) EmptyString.

(** [setup()]: the value of the module variable [viewport] afterwards
    ([None]: not assigned) and how the call ended. *)
Definition setup (doc : Document) : option Viewport.t * completion unit :=
  match canvas_element doc with
  | None =>
      (None,
       Throw (Error ("Please add a canvas element to the body with an id of "
                     ++ dquote ++ "canvas" ++ dquote)))
  | Some canvas =>
      match Viewport.create (Some canvas) 640 480 (devicePixelRatio doc) with
      | Throw e => (None, Throw e)
      | Normal viewport =>
          if render_button doc then (Some viewport, Normal tt)
          else
            (Some viewport,
             Throw (Error ("Please add a render button element to the body with an id of "
                       ++ dquote ++ "renderBtn" ++ dquote)))
      end
  end.

(** The public operations on a viewport after its construction, and the
    viewport they leave behind. *)
Inductive operation : Type :=
| OpFill (style : string)
| OpClear
| OpSetImageData (img : ImageData)
| OpRender (color_at : colorFn).

Definition perform (v : Viewport.t) (op : operation) : Viewport.t :=
  match op with
  | OpFill style => Viewport.fill style v
  | OpClear => Viewport.clear v
  | OpSetImageData img =>
      match Viewport.set_imageData img v with
      | Normal v' => v'
      | Throw _ => v
      end
  | OpRender color_at => viewport_after (render_with color_at v)
  end.

Definition perform_all (v : Viewport.t) (ops : list operation) : Viewport.t :=
  foldl perform v ops.

(** *** Specification-level vocabulary *)

(** One channel of a colour: [0] red, [1] green, otherwise blue. *)
Definition channel (rgb : Z * Z * Z) (c : Z) : Z :=
  match rgb with
  | (r, g, b) => if c =? 0 then r else if c =? 1 then g else b
  end.

(** The loop body run over a list of coordinates, first to last, stopping
    at the first exception. *)
Fixpoint run_body (color_at : colorFn) (nx ny : Z) (pixels : list (Z * Z))
    (st : LoopState) : LoopState * option exn :=
  match pixels with
  | [] => (st, None)
  | (i, j) :: rest =>
      match body color_at nx ny i j st with
      | (st', Some e) => (st', Some e)
      | (st', None) => run_body color_at nx ny rest st'
      end
  end.

(** The row [j] from column [i] on, left to right. *)
Definition row_from (nx i j : Z) : list (Z * Z) :=
  (fun i' => (i', j)) <$> seqZ i (nx - i).

(** The rows [j], [j - 1], ..., [0], each left to right. *)
Definition rows_down (nx j : Z) : list (Z * Z) :=
  reverse (seqZ 0 (j + 1)) ≫= row_from nx 0.

(** The scan order of a frame of [nx] columns and [ny] rows. *)
Definition scan_order (nx ny : Z) : list (Z * Z) := rows_down nx (ny - 1).

(** The write cursor paired with each coordinate of a list, starting from
    [start] and advancing by four. *)
Definition with_cursor (start : Z) (pixels : list (Z * Z)) : list (Z * Z * Z) :=
  imap (fun k p => (p.1, p.2, start + 4 * Z.of_nat k)) pixels.

(** The colour computation ends normally on every coordinate of a list. *)
Definition total_on (color_at : colorFn) (nx ny : Z) (ps : list (Z * Z)) : Prop :=
  forall i j, (i, j) ∈ ps -> exists rgb, color_at i j nx ny = Normal rgb.

(** The backing store has four bytes per pixel of the canvas. *)
Definition canvas_ok (c : HTMLCanvasElement) : Prop :=
  length (bitmap c) = (4 * canvas_width c * canvas_height c)%nat.

(** [v] is a surface of logical size [w] x [h] with pixel ratio [r]: the
    state [setSize w h r] establishes and the later operations keep. *)
Definition is_surface (w h r : Z) (v : Viewport.t) : Prop :=
  let c := Viewport.canvas v in
  0 <= w /\ 0 <= h /\ 0 <= r /\
  style_width c = (Number_toString w ++ "px")%string /\
  style_height c = (Number_toString h ++ "px")%string /\
  canvas_width c = Z.to_nat (w * r) /\
  canvas_height c = Z.to_nat (h * r) /\
  canvas_ok c.

(** The bytes [render] hands to the setter when it starts from the bytes
    [snapshot] and the bounds [nx], [ny]. *)
Definition frame (color_at : colorFn) (nx ny : Z) (snapshot : list Z) : list Z :=
  data (run_body color_at nx ny (scan_order nx ny) (mkLoop snapshot 0 [])).1.

(** The buffers committed since the state [before]. *)
Definition committed_since (before after : Viewport.t) : list ImageData :=
  drop (length (committed (Viewport.canvas before)))
       (committed (Viewport.canvas after)).

(** The colour computation ends normally on every coordinate of a frame of
    [w] columns and [h] rows. *)
Definition total_in_frame (color_at : colorFn) (w h : Z) : Prop :=
  forall x y, 0 <= x < w -> 0 <= y < h ->
    exists rgb, color_at x y w h = Normal rgb.

(** Two channel values differ by at most [tolerance]. *)
Definition approx (tolerance a b : Z) : Prop := Z.abs (a - b) <= tolerance.

(** *** Concrete inputs for the examples *)

(** A canvas element of size zero that can give a 2d context. *)
Definition empty_canvas : HTMLCanvasElement :=
  mkCanvas "" "" 0 0 [] true (0, 0, 0) 1 1 [].

(** The viewport constructed on [empty_canvas]. *)
Definition example_viewport (width height pixelRatio : Z) : Viewport.t :=
  match Viewport.create (Some empty_canvas) width height pixelRatio with
  | Normal v => v
  | Throw _ => Viewport.mk empty_canvas
  end.

(** A page with [empty_canvas], a render button and a device pixel ratio
    of one. *)
Definition example_page : Document :=
  mkDocument (Some empty_canvas) true (Some 1).

(** A colour computation that throws at the coordinate [(1, 0)]. *)
Definition failing_color : colorFn :=
  fun i j nx ny =>
    if (i =? 1) && (j =? 0) then Throw (Error "no colour here")
    else gradient i j nx ny.

(** A buffer of one red pixel. *)
Definition one_red_pixel : ImageData := mkImageData 1 1 [255; 0; 0; 255].

(** The four bytes of the pixel in column [x] of row [y] of an image,
    rows counted from the top: [i = y * (width * 4) + x * 4], then
    [data[i]], [data[i + 1]], [data[i + 2]], [data[i + 3]]. *)
Definition image_pixel (img : ImageData) (x y : Z) : list (option Z) :=
  let i := y * (Z.of_nat (img_width img) * 4) + x * 4 in
  [array_get (img_data img) i; array_get (img_data img) (i + 1);
   array_get (img_data img) (i + 2); array_get (img_data img) (i + 3)].

(** *** Vocabulary of the further properties *)

(** The scaling of the context is [r] in both directions, as [setSize]
    leaves it. *)
Definition is_scaled_by (r : Z) (v : Viewport.t) : Prop :=
  scale_x (Viewport.canvas v) = r /\ scale_y (Viewport.canvas v) = r.

(** A value a byte array can hold. *)
Definition is_byte (b : Z) : bool := (0 <=? b) && (b <=? 255).

(** Every element of the list is a byte. *)
Definition bytes_ok (d : list Z) : Prop := forallb is_byte d = true.

(** Every pixel of the byte list has alpha 255. *)
Definition is_opaque (d : list Z) : Prop :=
  forall p : nat, (4 * p + 3 < length d)%nat -> d !! (4 * p + 3)%nat = Some 255.

(** A colour computation that returns channel values outside [0..255]. *)
Definition wild_color : colorFn :=
  fun i j nx ny => Normal (- 7, 300 + i, 1000 * j).

(* ===================================================================== *)
(** ** Numerals: printing and reading back *)
(* ===================================================================== *)

Lemma digit_value_digit_char d :
  0 <= d < 10 -> digit_value (digit_char d) = Some d.
Proof.
  intros Hd.
  assert (d = 0 \/ d = 1 \/ d = 2 \/ d = 3 \/ d = 4 \/ d = 5 \/ d = 6
          \/ d = 7 \/ d = 8 \/ d = 9) as Hcases by lia.
  repeat (destruct Hcases as [-> | Hcases]; [reflexivity |]).
  subst d. reflexivity.
Qed.

(** Reading the numeral of [n] on top of [a] shifts [a] by the number of
    digits of [n] and adds [n]; the reader then goes on with the rest. *)
Lemma parse_digits_digits n :
  0 <= n ->
  forall acc, exists k, 0 <= k /\
    forall a, parse_digits (digits n acc) a = parse_digits acc (a * 10 ^ k + n).
Proof.
  induction n as [n IH] using (well_founded_induction (Z.lt_wf 0)).
  intros Hn acc.
  rewrite digits_equation_1. destruct (decide (n < 10)) as [Hlt | Hge].
  - exists 1. split; [lia|]. intros a. cbn [parse_digits].
    rewrite digit_value_digit_char by lia. f_equal. lia.
  - assert (0 <= n / 10 < n) as Hq.
    { split; [apply Z.div_pos; lia | apply Z.div_lt; lia]. }
    destruct (IH (n / 10) ltac:(lia) ltac:(lia)
                 (String (digit_char (n mod 10)) acc)) as (k & Hk & Hparse).
    exists (k + 1). split; [lia|]. intros a. rewrite Hparse.
    cbn [parse_digits].
    rewrite digit_value_digit_char by (apply Z.mod_pos_bound; lia).
    f_equal. rewrite Z.pow_add_r by lia.
    pose proof (Z.div_mod n 10 ltac:(lia)). lia.
Qed.

Lemma digits_head n acc :
  0 <= n -> exists d s, 0 <= d < 10 /\ digits n acc = String (digit_char d) s.
Proof.
  revert acc.
  induction n as [n IH] using (well_founded_induction (Z.lt_wf 0)).
  intros acc Hn.
  rewrite digits_equation_1. destruct (decide (n < 10)) as [Hlt | Hge].
  - exists n, acc. split; [lia | reflexivity].
  - apply IH; [|apply Z.div_pos; lia].
    split; [apply Z.div_pos; lia | apply Z.div_lt; lia].
Qed.

Lemma digits_app n acc s :
  0 <= n -> (digits n acc ++ s)%string = digits n (acc ++ s)%string.
Proof.
  revert acc.
  induction n as [n IH] using (well_founded_induction (Z.lt_wf 0)).
  intros acc Hn.
  rewrite (digits_equation_1 n acc), (digits_equation_1 n (acc ++ s)).
  destruct (decide (n < 10)) as [Hlt | Hge]; [reflexivity|].
  rewrite IH; [reflexivity | | apply Z.div_pos; lia].
  split; [apply Z.div_pos; lia | apply Z.div_lt; lia].
Qed.

Lemma parseInt_digit_head d s :
  0 <= d < 10 ->
  parseInt (String (digit_char d) s) = Int (parse_digits (String (digit_char d) s) 0).
Proof.
  intros Hd.
  assert (d = 0 \/ d = 1 \/ d = 2 \/ d = 3 \/ d = 4 \/ d = 5 \/ d = 6
          \/ d = 7 \/ d = 8 \/ d = 9) as Hcases by lia.
  repeat (destruct Hcases as [-> | Hcases]; [reflexivity |]).
  subst d. reflexivity.
Qed.

Lemma parse_unsigned_digit_head d s :
  0 <= d < 10 ->
  parse_unsigned (String (digit_char d) s) = Int (parse_digits (String (digit_char d) s) 0).
Proof.
  intros Hd. unfold parse_unsigned. now rewrite digit_value_digit_char.
Qed.

Lemma parse_digits_px a : parse_digits "px" a = a.
Proof. reflexivity. Qed.

(** [parseInt(n + "px", 10)] is [n]. *)
Lemma parseInt_px n : parseInt (Number_toString n ++ "px") = Int n.
Proof.
  unfold Number_toString. destruct (Z.ltb_spec n 0) as [Hneg | Hpos].
  - cbn [append]. rewrite digits_app by lia. cbn [append].
    destruct (digits_head (- n) "px" ltac:(lia)) as (d & s & Hd & Hs).
    destruct (parse_digits_digits (- n) ltac:(lia) "px") as (k & Hk & Hparse).
    change (parseInt (String "-" (digits (- n) "px")))
      with (number_opp (parse_unsigned (digits (- n) "px"))).
    rewrite Hs, parse_unsigned_digit_head by exact Hd. rewrite <- Hs, Hparse.
    rewrite parse_digits_px. unfold number_opp. f_equal; lia.
  - rewrite digits_app by lia. cbn [append].
    destruct (digits_head n "px" Hpos) as (d & s & Hd & Hs).
    destruct (parse_digits_digits n Hpos "px") as (k & Hk & Hparse).
    rewrite Hs, parseInt_digit_head by exact Hd. rewrite <- Hs, Hparse.
    rewrite parse_digits_px. f_equal; lia.
Qed.

(* ===================================================================== *)
(** ** Byte arrays *)
(* ===================================================================== *)

Lemma array_get_of_nat (d : list Z) (n : nat) : array_get d (Z.of_nat n) = d !! n.
Proof.
  unfold array_get. destruct (Z.leb_spec 0 (Z.of_nat n)); [|lia].
  now rewrite Nat2Z.id.
Qed.

Lemma array_set_length d k v : length (array_set d k v) = length d.
Proof. unfold array_set. destruct (0 <=? k); [apply length_insert | reflexivity]. Qed.

Lemma array_get_set_ne d k v n : k <> n -> array_get (array_set d k v) n = array_get d n.
Proof.
  intros Hne. unfold array_get, array_set.
  destruct (Z.leb_spec 0 n); [|reflexivity].
  destruct (Z.leb_spec 0 k); [|reflexivity].
  apply list_lookup_insert_ne. lia.
Qed.

Lemma array_get_set_eq d k v :
  array_get (array_set d k v) k = (fun _ => ToUint8Clamp v) <$> array_get d k.
Proof.
  unfold array_get, array_set. destruct (Z.leb_spec 0 k); [|reflexivity].
  destruct (decide (Z.to_nat k < length d)%nat) as [Hin | Hout].
  - rewrite list_lookup_insert_eq by exact Hin.
    destruct (lookup_lt_is_Some_2 d _ Hin) as [x ->]. reflexivity.
  - rewrite list_insert_ge by lia. rewrite (lookup_ge_None_2 d) by lia. reflexivity.
Qed.

Lemma array_get_lt_Some d n : 0 <= n < Z.of_nat (length d) -> is_Some (array_get d n).
Proof.
  intros Hn. unfold array_get. destruct (Z.leb_spec 0 n); [|lia].
  apply lookup_lt_is_Some_2. lia.
Qed.

Lemma array_ext (d1 d2 : list Z) :
  (forall n, 0 <= n -> array_get d1 n = array_get d2 n) -> d1 = d2.
Proof.
  intros Hget. apply list_eq. intros i.
  rewrite <- !array_get_of_nat. apply Hget. lia.
Qed.

(* ===================================================================== *)
(** ** The loop body *)
(* ===================================================================== *)

Section Body.

Variable color_at : colorFn.
Variables nx ny : Z.

Lemma body_normal i j st rgb :
  color_at i j nx ny = Normal rgb ->
  body color_at nx ny i j st =
  (mkLoop
     (array_set (array_set (array_set (data st) (index st) (channel rgb 0))
                   (index st + 1) (channel rgb 1))
        (index st + 2) (channel rgb 2))
     (index st + 4)
     (calls st ++ [(i, j, index st)]),
   None).
Proof. intros Hc. unfold body. rewrite Hc. now destruct rgb as [[r g] b]. Qed.

Lemma body_throw i j st e :
  color_at i j nx ny = Throw e ->
  body color_at nx ny i j st =
  (mkLoop (data st) (index st) (calls st ++ [(i, j, index st)]), Some e).
Proof. intros Hc. unfold body. now rewrite Hc. Qed.

(** A step of the body leaves every byte alone except the three at the
    cursor. *)
Lemma body_get_other i j st st' o n :
  body color_at nx ny i j st = (st', o) ->
  n < index st \/ index st + 3 <= n ->
  array_get (data st') n = array_get (data st) n.
Proof.
  intros Hb Hn. destruct (color_at i j nx ny) as [rgb | e] eqn:Hc.
  - rewrite (body_normal _ _ _ _ Hc) in Hb. injection Hb as <- _. cbn [data].
    rewrite !array_get_set_ne by lia. reflexivity.
  - rewrite (body_throw _ _ _ _ Hc) in Hb. now injection Hb as <- _.
Qed.

Lemma body_length i j st st' o :
  body color_at nx ny i j st = (st', o) -> length (data st') = length (data st).
Proof.
  intros Hb. destruct (color_at i j nx ny) as [rgb | e] eqn:Hc.
  - rewrite (body_normal _ _ _ _ Hc) in Hb. injection Hb as <- _. cbn [data].
    now rewrite !array_set_length.
  - rewrite (body_throw _ _ _ _ Hc) in Hb. now injection Hb as <- _.
Qed.

Lemma body_get_written i j st rgb c :
  color_at i j nx ny = Normal rgb ->
  0 <= c < 3 ->
  array_get (data (body color_at nx ny i j st).1) (index st + c) =
  (fun _ => ToUint8Clamp (channel rgb c)) <$> array_get (data st) (index st + c).
Proof.
  intros Hc Hrange. rewrite (body_normal _ _ _ _ Hc). cbn [fst data].
  assert (c = 0 \/ c = 1 \/ c = 2) as [-> | [-> | ->]] by lia.
  - rewrite Z.add_0_r, !array_get_set_ne by lia. apply array_get_set_eq.
  - rewrite array_get_set_ne by lia. rewrite array_get_set_eq.
    now rewrite array_get_set_ne by lia.
  - rewrite array_get_set_eq. now rewrite !array_get_set_ne by lia.
Qed.

End Body.

(* ===================================================================== *)
(** ** The loops run the body over the scan order *)
(* ===================================================================== *)

Section Loops.

Variable color_at : colorFn.
Variables nx ny : Z.

Lemma run_body_app ps qs st :
  run_body color_at nx ny (ps ++ qs) st =
  match run_body color_at nx ny ps st with
  | (st', Some e) => (st', Some e)
  | (st', None) => run_body color_at nx ny qs st'
  end.
Proof.
  revert st. induction ps as [| [i j] ps IH]; intros st; [reflexivity|].
  cbn [app run_body].
  destruct (body color_at nx ny i j st) as [st1 [e|]]; [reflexivity | apply IH].
Qed.

Lemma row_from_nil i j : nx <= i -> row_from nx i j = [].
Proof. intros Hi. unfold row_from. now rewrite seqZ_nil by lia. Qed.

Lemma row_from_cons i j : i < nx -> row_from nx i j = (i, j) :: row_from nx (i + 1) j.
Proof.
  intros Hi. unfold row_from. rewrite seqZ_cons by lia. cbn [fmap list_fmap].
  do 3 f_equal; lia.
Qed.

Lemma inner_run j i st :
  inner color_at nx ny j i st = run_body color_at nx ny (row_from nx i j) st.
Proof.
  remember (Z.to_nat (nx - i)) as m eqn:Hm. revert i st Hm.
  induction m as [| m IH]; intros i st Hm; rewrite inner_equation_1.
  - destruct (decide (i < nx)); [lia|]. now rewrite row_from_nil by lia.
  - destruct (decide (i < nx)); [|lia]. rewrite row_from_cons by lia.
    cbn [run_body]. destruct (body color_at nx ny i j st) as [st1 [e|]];
      [reflexivity|]. apply IH. lia.
Qed.

Lemma rows_down_nil j : j < 0 -> rows_down nx j = [].
Proof. intros Hj. unfold rows_down. now rewrite seqZ_nil by lia. Qed.

Lemma rows_down_cons j :
  0 <= j -> rows_down nx j = row_from nx 0 j ++ rows_down nx (j - 1).
Proof.
  intros Hj. unfold rows_down.
  replace (j + 1) with (j + 1 * 1) at 1 by lia.
  rewrite seqZ_app by lia. rewrite reverse_app.
  replace (j - 1 + 1) with j by lia.
  change (seqZ (0 + j) (1 * 1)) with (seqZ (0 + j) 1).
  rewrite (seqZ_cons (0 + j) 1) by lia. rewrite seqZ_nil by lia.
  now rewrite Z.add_0_l.
Qed.

Lemma outer_run j st :
  outer color_at nx ny j st = run_body color_at nx ny (rows_down nx j) st.
Proof.
  remember (Z.to_nat (j + 1)) as m eqn:Hm. revert j st Hm.
  induction m as [| m IH]; intros j st Hm; rewrite outer_equation_1.
  - destruct (decide (j >= 0)); [lia|]. now rewrite rows_down_nil by lia.
  - destruct (decide (j >= 0)); [|lia]. rewrite rows_down_cons by lia.
    rewrite run_body_app, inner_run.
    destruct (run_body color_at nx ny (row_from nx 0 j) st) as [st1 [e|]];
      [reflexivity|]. apply IH. lia.
Qed.

End Loops.

(** [scan] on integer bounds is the body run over the scan order. *)
Lemma scan_run color_at nx ny st :
  scan color_at (Int nx) (Int ny) st =
  run_body color_at nx ny (scan_order nx ny) st.
Proof. apply outer_run. Qed.

(* ===================================================================== *)
(** ** The scan order as a list *)
(* ===================================================================== *)

Lemma row_from_length nx i j : length (row_from nx i j) = Z.to_nat (nx - i).
Proof. unfold row_from. now rewrite length_fmap, length_seqZ. Qed.

Lemma row_from_lookup nx j x :
  0 <= x < nx -> row_from nx 0 j !! Z.to_nat x = Some (x, j).
Proof.
  intros Hx. unfold row_from. rewrite list_lookup_fmap.
  rewrite lookup_seqZ_lt by lia. cbn. do 2 f_equal. lia.
Qed.

Lemma row_from_elem nx i j p : p ∈ row_from nx i j -> i <= p.1 < nx /\ p.2 = j.
Proof.
  unfold row_from. intros Hp. apply list_elem_of_fmap in Hp as (x & -> & Hx).
  apply elem_of_seqZ in Hx. cbn. lia.
Qed.

Lemma rows_down_length nx j :
  length (rows_down nx j) = (Z.to_nat (j + 1) * Z.to_nat nx)%nat.
Proof.
  remember (Z.to_nat (j + 1)) as m eqn:Hm. revert j Hm.
  induction m as [| m IH]; intros j Hm.
  - now rewrite rows_down_nil by lia.
  - rewrite rows_down_cons by lia. rewrite length_app, row_from_length.
    rewrite (IH (j - 1)) by lia. rewrite Z.sub_0_r. lia.
Qed.

Lemma scan_order_length nx ny :
  length (scan_order nx ny) = (Z.to_nat ny * Z.to_nat nx)%nat.
Proof.
  unfold scan_order. rewrite rows_down_length. do 2 f_equal. lia.
Qed.

Lemma rows_down_lookup nx j x y :
  0 <= x < nx -> 0 <= y <= j ->
  rows_down nx j !! Z.to_nat ((j - y) * nx + x) = Some (x, y).
Proof.
  intros Hx. remember (Z.to_nat (j - y)) as m eqn:Hm. revert j Hm.
  induction m as [| m IH]; intros j Hm Hy; rewrite rows_down_cons by lia.
  - assert (j = y) as -> by lia. rewrite Z.sub_diag, Z.mul_0_l, Z.add_0_l.
    rewrite lookup_app_l by (rewrite row_from_length; lia).
    now apply row_from_lookup.
  - rewrite lookup_app_r by (rewrite row_from_length; nia).
    rewrite row_from_length.
    replace (Z.to_nat ((j - y) * nx + x) - Z.to_nat (nx - 0))%nat
      with (Z.to_nat ((j - 1 - y) * nx + x)) by nia.
    apply IH; lia.
Qed.

(** The colour of [(x, y)] is evaluated as number [(ny - 1 - y) * nx + x]. *)
Lemma scan_order_lookup nx ny x y :
  0 <= x < nx -> 0 <= y < ny ->
  scan_order nx ny !! Z.to_nat ((ny - 1 - y) * nx + x) = Some (x, y).
Proof. intros Hx Hy. apply rows_down_lookup; lia. Qed.

Lemma rows_down_elem nx j p :
  p ∈ rows_down nx j -> 0 <= p.1 < nx /\ 0 <= p.2 <= j.
Proof.
  remember (Z.to_nat (j + 1)) as m eqn:Hm. revert j Hm.
  induction m as [| m IH]; intros j Hm.
  - rewrite rows_down_nil by lia. intros Hp. now apply elem_of_nil in Hp.
  - rewrite rows_down_cons by lia. intros Hp. apply elem_of_app in Hp as [Hp | Hp].
    + apply row_from_elem in Hp. lia.
    + apply IH in Hp; lia.
Qed.

Lemma scan_order_elem nx ny i j :
  (i, j) ∈ scan_order nx ny -> 0 <= i < nx /\ 0 <= j < ny.
Proof. intros Hp. apply rows_down_elem in Hp. cbn in Hp. lia. Qed.

Lemma scan_order_elem_of nx ny x y :
  0 <= x < nx -> 0 <= y < ny -> (x, y) ∈ scan_order nx ny.
Proof.
  intros Hx Hy. eapply list_elem_of_lookup_2. now apply scan_order_lookup.
Qed.

(* ===================================================================== *)
(** ** What a run of the body does to the state *)
(* ===================================================================== *)

Section Run.

Variable color_at : colorFn.
Variables nx ny : Z.

Local Ltac Zify.zify_post_hook ::= Z.to_euclidean_division_equations.

Local Abbreviation total_on := (total_on color_at nx ny).

Lemma total_on_cons p ps :
  total_on (p :: ps) ->
  (exists rgb, color_at p.1 p.2 nx ny = Normal rgb) /\ total_on ps.
Proof.
  intros Htot. split.
  - destruct p as [i j]. apply Htot. apply elem_of_cons. now left.
  - intros i j Hin. apply Htot. apply elem_of_cons. now right.
Qed.

Lemma with_cursor_cons start p ps :
  with_cursor start (p :: ps) = (p.1, p.2, start) :: with_cursor (start + 4) ps.
Proof.
  unfold with_cursor. rewrite imap_cons. f_equal.
  - f_equal. lia.
  - apply imap_ext. intros k q _. cbn. f_equal. lia.
Qed.

Lemma with_cursor_length start ps : length (with_cursor start ps) = length ps.
Proof. apply length_imap. Qed.

Lemma with_cursor_lookup start ps k :
  with_cursor start ps !! k =
  (fun p => (p.1, p.2, start + 4 * Z.of_nat k)) <$> ps !! k.
Proof. apply list_lookup_imap. Qed.

(** Without an exception the run ends normally, the cursor has advanced by
    four per coordinate, and the colour was evaluated once per coordinate,
    in the order of the list. *)
Lemma run_body_total ps st :
  total_on ps ->
  exists st',
    run_body color_at nx ny ps st = (st', None) /\
    index st' = index st + 4 * Z.of_nat (length ps) /\
    calls st' = calls st ++ with_cursor (index st) ps /\
    length (data st') = length (data st).
Proof.
  revert st. induction ps as [| [i j] ps IH]; intros st Htot.
  - exists st. cbn. rewrite app_nil_r. repeat split; lia.
  - apply total_on_cons in Htot as [[rgb Hc] Htot]. cbn [fst snd] in Hc.
    cbn [run_body]. rewrite (body_normal _ _ _ _ _ _ _ Hc).
    destruct (IH (mkLoop
        (array_set (array_set (array_set (data st) (index st) (channel rgb 0))
                      (index st + 1) (channel rgb 1))
           (index st + 2) (channel rgb 2))
        (index st + 4) (calls st ++ [(i, j, index st)])) Htot)
      as (st' & Hrun & Hidx & Hcalls & Hlen).
    cbn [index calls data] in *. exists st'. rewrite Hrun, Hidx, Hcalls, Hlen.
    rewrite with_cursor_cons, <- app_assoc, !array_set_length. cbn [length].
    repeat split; try reflexivity; lia.
Qed.

(** A run never changes the length of the array. *)
Lemma run_body_length ps st :
  length (data (run_body color_at nx ny ps st).1) = length (data st).
Proof.
  revert st. induction ps as [| [i j] ps IH]; intros st; [reflexivity|].
  cbn [run_body]. destruct (body color_at nx ny i j st) as [st1 o] eqn:Hb.
  pose proof (body_length _ _ _ _ _ _ _ _ Hb) as Hlen.
  destruct o as [e|]; cbn [fst]; [exact Hlen|]. now rewrite IH.
Qed.

(** Bytes before the cursor, bytes past the last pixel of the run, and
    every fourth byte counted from the cursor (the alpha bytes) are not
    written. *)
Lemma run_body_get_other ps st n :
  n < index st \/ index st + 4 * Z.of_nat (length ps) <= n
  \/ (n - index st) mod 4 = 3 ->
  array_get (data (run_body color_at nx ny ps st).1) n = array_get (data st) n.
Proof.
  revert st. induction ps as [| [i j] ps IH]; intros st Hn; [reflexivity|].
  cbn [run_body]. destruct (body color_at nx ny i j st) as [st1 o] eqn:Hb.
  assert (array_get (data st1) n = array_get (data st) n) as Hstep.
  { apply (body_get_other _ _ _ _ _ _ _ _ _ Hb). cbn [length] in Hn. lia. }
  destruct o as [e|]; cbn [fst]; [exact Hstep|].
  rewrite IH; [exact Hstep|].
  assert (index st1 = index st + 4) as ->.
  { revert Hb. unfold body.
    destruct (color_at i j nx ny) as [[[r g] b] | e]; intros [= <-]; reflexivity. }
  cbn [length] in Hn. lia.
Qed.

(** The three colour bytes of the [k]-th coordinate of the run hold the
    clamped channels of its colour, where the array has those bytes. *)
Lemma run_body_get_written ps st k i j rgb c :
  total_on ps ->
  ps !! k = Some (i, j) ->
  color_at i j nx ny = Normal rgb ->
  0 <= c < 3 ->
  array_get (data (run_body color_at nx ny ps st).1)
            (index st + 4 * Z.of_nat k + c) =
  (fun _ => ToUint8Clamp (channel rgb c))
    <$> array_get (data st) (index st + 4 * Z.of_nat k + c).
Proof.
  revert st k. induction ps as [| [i0 j0] ps IH]; intros st k Htot Hk Hc Hrange;
    [discriminate|].
  apply total_on_cons in Htot as [[rgb0 Hc0] Htot]. cbn [fst snd] in Hc0.
  cbn [run_body]. pose proof (body_normal _ _ _ _ _ st _ Hc0) as Hb.
  destruct k as [| k].
  - injection Hk as -> ->.
    pose proof (body_get_written color_at nx ny i j st rgb c Hc Hrange) as Hw.
    rewrite Hb in *. cbn [fst] in Hw.
    replace (index st + 4 * Z.of_nat 0 + c) with (index st + c) by lia.
    rewrite run_body_get_other by (cbn [index]; lia). exact Hw.
  - cbn in Hk. rewrite Hb.
    match goal with |- context [run_body _ _ _ _ ?s] =>
      specialize (IH s k Htot Hk Hc Hrange) end.
    cbn [index] in IH.
    replace (index st + 4 * Z.of_nat (S k) + c)
      with (index st + 4 + 4 * Z.of_nat k + c) by lia.
    rewrite IH. f_equal. cbn [data]. rewrite !array_get_set_ne by lia.
    reflexivity.
Qed.

End Run.

(* ===================================================================== *)
(** ** The backing store *)
(* ===================================================================== *)

Lemma Normal_inj {A} (a b : A) : Normal a = Normal b -> a = b.
Proof. congruence. Qed.

(** Byte [n] of a bitmap of width [cw] belongs to the pixel in column
    [(n / 4) mod cw] of row [(n / 4) / cw]. *)
Lemma byte_position (cw ch n : nat) :
  (n < 4 * cw * ch)%nat ->
  ((n / 4) mod cw < cw)%nat /\ ((n / 4) / cw < ch)%nat /\
  (4 * (((n / 4) / cw) * cw + (n / 4) mod cw) + n mod 4 = n)%nat.
Proof.
  intros Hn. assert (cw <> 0)%nat as Hcw by lia.
  assert (n / 4 < cw * ch)%nat as Hq by (apply Nat.Div0.div_lt_upper_bound; lia).
  split; [now apply Nat.mod_upper_bound|].
  split; [apply Nat.Div0.div_lt_upper_bound; lia|].
  pose proof (Nat.div_mod_eq (n / 4) cw). pose proof (Nat.div_mod_eq n 4). lia.
Qed.

(** Conversely, for the byte of channel [k] of the pixel [(x, y)]. *)
Lemma position_byte (cw x y k : nat) :
  (x < cw)%nat -> (k < 4)%nat ->
  (((4 * (y * cw + x) + k) / 4) mod cw = x)%nat /\
  (((4 * (y * cw + x) + k) / 4) / cw = y)%nat /\
  ((4 * (y * cw + x) + k) mod 4 = k)%nat.
Proof.
  intros Hx Hk.
  assert ((4 * (y * cw + x) + k) / 4 = y * cw + x)%nat as ->.
  { symmetry. apply (Nat.div_unique _ 4 _ k); lia. }
  split; [|split].
  - symmetry. apply (Nat.mod_unique _ cw y x); lia.
  - symmetry. apply (Nat.div_unique _ cw _ x); lia.
  - symmetry. apply (Nat.mod_unique _ 4 (y * cw + x) k); lia.
Qed.

Lemma repaint_lookup px c n :
  repaint px c !! n =
  px ((n / 4) mod canvas_width c)%nat ((n / 4) / canvas_width c)%nat
     (n mod 4)%nat <$> bitmap c !! n.
Proof. unfold repaint. now rewrite list_lookup_imap. Qed.

(** Reading the whole canvas yields a copy of the backing store. *)
Lemma getImageData_whole c :
  canvas_ok c -> canvas_width c <> 0%nat -> canvas_height c <> 0%nat ->
  getImageData (canvas_width c) (canvas_height c) c =
  Normal (mkImageData (canvas_width c) (canvas_height c) (bitmap c)).
Proof.
  intros Hok Hw Hh. unfold getImageData.
  destruct (Nat.eqb_spec (canvas_width c) 0) as [|_]; [contradiction|].
  destruct (Nat.eqb_spec (canvas_height c) 0) as [|_]; [contradiction|].
  cbn [orb]. do 2 f_equal. apply list_eq. intros n.
  rewrite list_lookup_fmap.
  destruct (decide (n < 4 * canvas_width c * canvas_height c)%nat) as [Hn | Hn].
  - rewrite lookup_seq_lt by exact Hn. cbn [fmap option_fmap option_map plus].
    destruct (byte_position _ _ _ Hn) as (Hx & Hy & Hpos).
    unfold pixel_byte.
    destruct (Nat.ltb_spec ((n / 4) mod canvas_width c) (canvas_width c)); [|lia].
    destruct (Nat.ltb_spec ((n / 4) / canvas_width c) (canvas_height c)); [|lia].
    cbn [andb]. rewrite Hpos.
    destruct (lookup_lt_is_Some_2 (bitmap c) n) as [b Hb]; [now rewrite Hok|].
    now rewrite Hb.
  - rewrite lookup_seq_ge by lia. rewrite lookup_ge_None_2; [reflexivity|].
    rewrite Hok. lia.
Qed.

(** An empty canvas cannot be read. *)
Lemma getImageData_empty c :
  canvas_width c = 0%nat \/ canvas_height c = 0%nat ->
  getImageData (canvas_width c) (canvas_height c) c =
  Throw (DOMException "IndexSizeError").
Proof.
  intros Hz. unfold getImageData.
  destruct (Nat.eqb_spec (canvas_width c) 0) as [|Hw]; [reflexivity|].
  destruct (Nat.eqb_spec (canvas_height c) 0) as [|Hh]; [reflexivity|]. lia.
Qed.

(** Writing a buffer of the size of the canvas replaces the backing store
    by the bytes of the buffer. *)
Lemma putImageData_whole c d :
  canvas_ok c -> length d = length (bitmap c) ->
  putImageData (mkImageData (canvas_width c) (canvas_height c) d) c =
  Normal
    (mkCanvas (style_width c) (style_height c) (canvas_width c)
       (canvas_height c) d (context2d c) (fillStyle c) (scale_x c)
       (scale_y c)
       (committed c ++ [mkImageData (canvas_width c) (canvas_height c) d])).
Proof.
  intros Hok Hlen. unfold putImageData. do 2 f_equal. cbn [img_width img_height img_data].
  apply list_eq. intros n. rewrite repaint_lookup.
  destruct (decide (n < 4 * canvas_width c * canvas_height c)%nat) as [Hn | Hn].
  - destruct (byte_position _ _ _ Hn) as (Hx & Hy & Hpos).
    destruct (Nat.ltb_spec ((n / 4) mod canvas_width c) (canvas_width c)); [|lia].
    destruct (Nat.ltb_spec ((n / 4) / canvas_width c) (canvas_height c)); [|lia].
    cbn [andb]. rewrite Hpos.
    destruct (lookup_lt_is_Some_2 (bitmap c) n) as [b Hb]; [now rewrite Hok|].
    destruct (lookup_lt_is_Some_2 d n) as [x Hx']; [rewrite Hlen, Hok; lia|].
    now rewrite Hb, Hx'.
  - assert (length d <= n)%nat as Hd by (rewrite Hlen, Hok; lia).
    rewrite (lookup_ge_None_2 (bitmap c)) by (rewrite Hok; lia).
    now rewrite (lookup_ge_None_2 d n Hd).
Qed.

(** After [putImageData] a byte of the canvas is the byte of the image
    at the same pixel and channel where the image has that pixel, and is
    unchanged elsewhere. *)
Lemma putImageData_pixel img c c' x y k :
  canvas_ok c ->
  length (img_data img) = (4 * img_width img * img_height img)%nat ->
  putImageData img c = Normal c' ->
  (x < canvas_width c)%nat -> (y < canvas_height c)%nat -> (k < 4)%nat ->
  pixel_byte c' x y k =
  if (x <? img_width img)%nat && (y <? img_height img)%nat
  then default 0 (img_data img !! (4 * (y * img_width img + x) + k)%nat)
  else pixel_byte c x y k.
Proof.
  intros Hok Himg Hput Hx Hy Hk. unfold putImageData in Hput.
  apply Normal_inj in Hput. subst c'. unfold pixel_byte.
  cbv [canvas_width canvas_height bitmap].
  fold (canvas_width c) (canvas_height c) (bitmap c).
  destruct (Nat.ltb_spec x (canvas_width c)); [|lia].
  destruct (Nat.ltb_spec y (canvas_height c)); [|lia]. cbn [andb].
  rewrite repaint_lookup.
  destruct (position_byte (canvas_width c) x y k Hx Hk) as (-> & -> & ->).
  destruct (lookup_lt_is_Some_2 (bitmap c) (4 * (y * canvas_width c + x) + k))
    as [b Hb]; [rewrite Hok; nia|].
  rewrite Hb.
  destruct (Nat.ltb_spec x (img_width img)); [|reflexivity].
  destruct (Nat.ltb_spec y (img_height img)); [|reflexivity].
  destruct (lookup_lt_is_Some_2 (img_data img) (4 * (y * img_width img + x) + k))
    as [v Hv]; [rewrite Himg; nia|].
  rewrite Hv. reflexivity.
Qed.

(* ===================================================================== *)
(** ** Surfaces *)
(* ===================================================================== *)

Lemma surface_width w h r v : is_surface w h r v -> Viewport.width v = Int w.
Proof.
  intros (_ & _ & _ & Hw & _). unfold Viewport.width. rewrite Hw.
  apply parseInt_px.
Qed.

Lemma surface_height w h r v : is_surface w h r v -> Viewport.height v = Int h.
Proof.
  intros (_ & _ & _ & _ & Hh & _). unfold Viewport.height. rewrite Hh.
  apply parseInt_px.
Qed.

Lemma surface_bitmap_length w h r v :
  is_surface w h r v ->
  Z.of_nat (length (bitmap (Viewport.canvas v))) = 4 * (w * r) * (h * r).
Proof.
  intros (Hw & Hh & Hr & _ & _ & Hcw & Hch & Hok).
  rewrite Hok, Hcw, Hch. nia.
Qed.

(** Reading the image data of a surface with pixels. *)
Lemma surface_imageData w h r v :
  is_surface w h r v -> 0 < w -> 0 < h -> 0 < r ->
  Viewport.imageData v =
  Normal (mkImageData (Z.to_nat (w * r)) (Z.to_nat (h * r))
            (bitmap (Viewport.canvas v))).
Proof.
  intros (_ & _ & _ & _ & _ & Hcw & Hch & Hok) Hw Hh Hr.
  unfold Viewport.imageData. rewrite <- Hcw, <- Hch.
  apply getImageData_whole; [exact Hok | rewrite Hcw; nia | rewrite Hch; nia].
Qed.

(** Reading the image data of a surface without pixels. *)
Lemma surface_imageData_empty w h r v :
  is_surface w h r v -> w = 0 \/ h = 0 \/ r = 0 ->
  Viewport.imageData v = Throw (DOMException "IndexSizeError").
Proof.
  intros (_ & _ & _ & _ & _ & Hcw & Hch & Hok) Hz.
  unfold Viewport.imageData. apply getImageData_empty.
  rewrite Hcw, Hch. destruct Hz as [-> | [-> | ->]]; lia.
Qed.

(** Writing back a buffer of the size of the surface. *)
Lemma surface_set_imageData w h r v d :
  is_surface w h r v ->
  length d = length (bitmap (Viewport.canvas v)) ->
  exists v',
    Viewport.set_imageData
      (mkImageData (Z.to_nat (w * r)) (Z.to_nat (h * r)) d) v = Normal v' /\
    is_surface w h r v' /\
    bitmap (Viewport.canvas v') = d /\
    committed (Viewport.canvas v') =
    committed (Viewport.canvas v)
      ++ [mkImageData (Z.to_nat (w * r)) (Z.to_nat (h * r)) d].
Proof.
  intros (Hw & Hh & Hr & Hsw & Hsh & Hcw & Hch & Hok) Hlen.
  unfold Viewport.set_imageData. rewrite <- Hcw, <- Hch.
  rewrite (putImageData_whole _ _ Hok Hlen). eexists. split; [reflexivity|].
  split; [|split; reflexivity].
  unfold is_surface, canvas_ok. cbv [Viewport.canvas style_width style_height
    canvas_width canvas_height bitmap].
  fold (Viewport.canvas v).
  repeat split; try assumption. rewrite Hlen. exact Hok.
Qed.

(** The styled size is not touched by any operation. *)
Lemma perform_style v op :
  style_width (Viewport.canvas (perform v op)) = style_width (Viewport.canvas v) /\
  style_height (Viewport.canvas (perform v op)) = style_height (Viewport.canvas v).
Proof.
  destruct op as [style | | img | color_at]; cbn [perform].
  - unfold Viewport.fill, fillRect, set_fillStyle.
    destruct (css_color style); split; reflexivity.
  - split; reflexivity.
  - split; reflexivity.
  - unfold render_with.
    destruct (Viewport.imageData v) as [id | e]; [|split; reflexivity].
    destruct (scan _ _ _ _) as [st [e|]]; split; reflexivity.
Qed.

Lemma perform_all_style v ops :
  style_width (Viewport.canvas (perform_all v ops)) = style_width (Viewport.canvas v) /\
  style_height (Viewport.canvas (perform_all v ops)) = style_height (Viewport.canvas v).
Proof.
  revert v. induction ops as [| op ops IH]; intros v; [split; reflexivity|].
  cbn [perform_all foldl]. destruct (IH (perform v op)) as [Hw Hh].
  unfold perform_all in Hw, Hh. rewrite Hw, Hh. apply perform_style.
Qed.

(** The state [setSize] leaves. *)
Lemma setSize_canvas w h r v :
  Viewport.canvas (Viewport.setSize w h r v) =
  mkCanvas (Number_toString w ++ "px") (Number_toString h ++ "px")
    (Z.to_nat (w * r)) (Z.to_nat (h * r))
    (transparent_black (Z.to_nat (w * r)) (Z.to_nat (h * r)))
    (context2d (Viewport.canvas v)) (0, 0, 0) (1 * r) (1 * r)
    (committed (Viewport.canvas v)).
Proof. reflexivity. Qed.

(** Filling with white makes every byte of the backing store 255, when
    the scaling does not shrink (or there is nothing to fill). *)
Lemma fill_white c :
  canvas_ok c ->
  (length (bitmap c) <> 0%nat -> 1 <= scale_x c /\ 1 <= scale_y c) ->
  Viewport.fill "white" (Viewport.mk c) =
  Viewport.mk
    (mkCanvas (style_width c) (style_height c) (canvas_width c)
       (canvas_height c) (replicate (length (bitmap c)) 255) (context2d c)
       (255, 255, 255) (scale_x c) (scale_y c) (committed c)).
Proof.
  intros Hok Hscale. unfold Viewport.fill, set_fillStyle.
  change (css_color "white") with (Some (255, 255, 255)). cbv iota.
  unfold fillRect, set_bitmap, Viewport.canvas.
  cbv [style_width style_height canvas_width canvas_height context2d
       fillStyle scale_x scale_y committed].
  fold (canvas_width c) (canvas_height c).
  do 2 f_equal. apply list_eq. intros n. rewrite repaint_lookup.
  cbv [canvas_width bitmap]. fold (canvas_width c) (bitmap c).
  destruct (decide (n < length (bitmap c))%nat) as [Hn | Hn].
  - rewrite lookup_replicate_2 by exact Hn.
    destruct (lookup_lt_is_Some_2 (bitmap c) n Hn) as [b ->].
    destruct Hscale as [Hsx Hsy]; [lia|].
    assert (n < 4 * canvas_width c * canvas_height c)%nat as Hn' by (now rewrite <- Hok).
    destruct (byte_position _ _ _ Hn') as (Hx & Hy & _).
    unfold in_rect. cbv [scale_x scale_y]. fold (scale_x c) (scale_y c).
    revert Hx Hy. generalize ((n / 4) mod canvas_width c)%nat as x.
    generalize ((n / 4) / canvas_width c)%nat as y. intros y x Hx Hy.
    destruct (Z.ltb_spec (Z.of_nat x) (Z.of_nat (canvas_width c) * scale_x c)); [|nia].
    destruct (Z.ltb_spec (Z.of_nat y) (Z.of_nat (canvas_height c) * scale_y c)); [|nia].
    cbn [andb fmap option_fmap option_map]. f_equal.
    assert (n mod 4 < 4)%nat as Hk by (apply Nat.mod_upper_bound; lia).
    destruct (n mod 4)%nat as [| [| [| [| k]]]]; [reflexivity.. | lia].
  - rewrite (lookup_ge_None_2 (bitmap c)) by lia.
    rewrite (proj1 (lookup_replicate_None _ _ _)) by lia. reflexivity.
Qed.

(** The constructor on a canvas with a 2d context: the surface has the
    asked size and is white and opaque all over. *)
Lemma create_surface c w h r :
  context2d c = true -> 0 <= w -> 0 <= h -> 0 <= r ->
  exists v,
    Viewport.create (Some c) w h r = Normal v /\
    is_surface w h r v /\
    bitmap (Viewport.canvas v) =
      replicate (4 * Z.to_nat (w * r) * Z.to_nat (h * r)) 255 /\
    committed (Viewport.canvas v) = committed c.
Proof.
  intros Hctx Hw Hh Hr. unfold Viewport.create, Viewport.constructor.
  rewrite Hctx. eexists. split; [reflexivity|].
  assert (Viewport.setSize w h r (Viewport.mk c)
          = Viewport.mk (Viewport.canvas (Viewport.setSize w h r (Viewport.mk c))))
    as -> by reflexivity.
  rewrite setSize_canvas. rewrite fill_white.
  - cbv [style_width style_height canvas_width canvas_height bitmap
         context2d scale_x scale_y committed Viewport.canvas].
    unfold transparent_black. rewrite length_replicate.
    split; [|split; reflexivity].
    unfold is_surface, canvas_ok.
    cbv [style_width style_height canvas_width canvas_height bitmap
         Viewport.canvas].
    rewrite length_replicate. repeat split; assumption.
  - unfold canvas_ok, transparent_black. cbv [bitmap canvas_width canvas_height].
    apply length_replicate.
  - cbv [bitmap scale_x scale_y]. unfold transparent_black.
    rewrite length_replicate. intros Hne. nia.
Qed.

(* ===================================================================== *)
(** ** The frame computed from a snapshot *)
(* ===================================================================== *)

Section Frame.

Variable color_at : colorFn.
Variables nx ny : Z.

Local Ltac Zify.zify_post_hook ::= Z.to_euclidean_division_equations.

Lemma run_body_normal_total ps st st' :
  run_body color_at nx ny ps st = (st', None) -> total_on color_at nx ny ps.
Proof.
  revert st. induction ps as [| [i0 j0] ps IH]; intros st Hrun i j Hin.
  - now apply elem_of_nil in Hin.
  - cbn [run_body] in Hrun.
    destruct (body color_at nx ny i0 j0 st) as [st1 [e1|]] eqn:Hb; [discriminate|].
    apply elem_of_cons in Hin as [[= -> ->] | Hin]; [|exact (IH _ Hrun i j Hin)].
    destruct (color_at i0 j0 nx ny) as [rgb | e] eqn:Hc; [now exists rgb|].
    rewrite (body_throw _ _ _ _ _ _ _ Hc) in Hb. discriminate.
Qed.

(** A pending exception of a run is one the colour computation threw on
    a coordinate of the run. *)
Lemma run_body_exn_source ps st st' e :
  run_body color_at nx ny ps st = (st', Some e) ->
  exists i j, (i, j) ∈ ps /\ color_at i j nx ny = Throw e.
Proof.
  revert st. induction ps as [| [i0 j0] ps IH]; intros st Hrun; [discriminate|].
  cbn [run_body] in Hrun.
  destruct (body color_at nx ny i0 j0 st) as [st1 [e1|]] eqn:Hb.
  - exists i0, j0. split; [apply elem_of_cons; now left|].
    destruct (color_at i0 j0 nx ny) as [rgb | e0] eqn:Hc.
    + rewrite (body_normal _ _ _ _ _ _ _ Hc) in Hb. discriminate.
    + rewrite (body_throw _ _ _ _ _ _ _ Hc) in Hb. congruence.
  - destruct (IH _ Hrun) as (i & j & Hin & Hc). exists i, j.
    split; [apply elem_of_cons; now right | exact Hc].
Qed.

Lemma frame_length s : length (frame color_at nx ny s) = length s.
Proof. unfold frame. now rewrite run_body_length. Qed.

(** Bytes from [4 * nx * ny] on, and every alpha byte, are those of the
    snapshot. *)
Lemma frame_get_other s n :
  4 * Z.of_nat (length (scan_order nx ny)) <= n \/ n mod 4 = 3 ->
  array_get (frame color_at nx ny s) n = array_get s n.
Proof.
  intros Hn. unfold frame. rewrite run_body_get_other; [reflexivity|].
  cbn [index]. rewrite Z.sub_0_r. lia.
Qed.

(** The colour of [(x, y)] is stored at [4 * ((ny - 1 - y) * nx + x)]. *)
Lemma frame_get_written s x y rgb c :
  total_on color_at nx ny (scan_order nx ny) ->
  0 <= x < nx -> 0 <= y < ny ->
  color_at x y nx ny = Normal rgb ->
  0 <= c < 3 ->
  array_get (frame color_at nx ny s) (4 * ((ny - 1 - y) * nx + x) + c) =
  (fun _ => ToUint8Clamp (channel rgb c))
    <$> array_get s (4 * ((ny - 1 - y) * nx + x) + c).
Proof.
  intros Htot Hx Hy Hc Hrange. unfold frame.
  pose proof (run_body_get_written color_at nx ny (scan_order nx ny)
                (mkLoop s 0 []) _ x y rgb c Htot
                (scan_order_lookup nx ny x y Hx Hy) Hc Hrange) as Hw.
  cbn [index data] in Hw.
  replace (0 + 4 * Z.of_nat (Z.to_nat ((ny - 1 - y) * nx + x)) + c)
    with (4 * ((ny - 1 - y) * nx + x) + c) in Hw by nia.
  exact Hw.
Qed.

(** Computing the frame again from its own result changes nothing. *)
Lemma frame_idempotent s :
  total_on color_at nx ny (scan_order nx ny) ->
  frame color_at nx ny (frame color_at nx ny s) = frame color_at nx ny s.
Proof.
  intros Htot. apply array_ext. intros n Hn.
  destruct (decide (4 * Z.of_nat (length (scan_order nx ny)) <= n \/ n mod 4 = 3))
    as [Hother | Hhit].
  - now rewrite frame_get_other.
  - assert (exists k c, n = 0 + 4 * Z.of_nat k + c /\ 0 <= c < 3
                        /\ (k < length (scan_order nx ny))%nat)
      as (k & c & -> & Hc & Hk).
    { exists (Z.to_nat (n / 4)), (n mod 4). lia. }
    destruct (lookup_lt_is_Some_2 _ _ Hk) as [[i j] Hp].
    destruct (Htot i j (list_elem_of_lookup_2 _ _ _ Hp)) as [rgb Hrgb].
    unfold frame at 1 3.
    pose proof (run_body_get_written color_at nx ny (scan_order nx ny)
                  (mkLoop (frame color_at nx ny s) 0 []) k i j rgb c Htot Hp Hrgb Hc)
      as H1.
    pose proof (run_body_get_written color_at nx ny (scan_order nx ny)
                  (mkLoop s 0 []) k i j rgb c Htot Hp Hrgb Hc) as H2.
    cbn [index data] in H1, H2. rewrite H1. unfold frame. rewrite H2.
    now destruct (array_get s (0 + 4 * Z.of_nat k + c)).
Qed.

End Frame.

(* ===================================================================== *)
(** ** One call of [render] on a surface *)
(* ===================================================================== *)

Section Render.

Variable color_at : colorFn.
Variables w h r : Z.
Variable v : Viewport.t.
Hypothesis Hsurface : is_surface w h r v.

(** A surface without pixels: the acquisition throws, nothing else
    happens. *)
Lemma render_empty :
  w = 0 \/ h = 0 \/ r = 0 ->
  render_with color_at v = mkRendered v (Throw (DOMException "IndexSizeError")) [].
Proof.
  intros Hz. unfold render_with.
  now rewrite (surface_imageData_empty _ _ _ _ Hsurface Hz).
Qed.

(** A surface with pixels: the loops run on a copy of the backing store. *)
Lemma render_run :
  0 < w -> 0 < h -> 0 < r ->
  render_with color_at v =
  match run_body color_at w h (scan_order w h)
          (mkLoop (bitmap (Viewport.canvas v)) 0 []) with
  | (st, Some e) => mkRendered v (Throw e) (calls st)
  | (st, None) =>
      match Viewport.set_imageData
              (mkImageData (Z.to_nat (w * r)) (Z.to_nat (h * r)) (data st)) v with
      | Normal v' => mkRendered v' (Normal tt) (calls st)
      | Throw e => mkRendered v (Throw e) (calls st)
      end
  end.
Proof.
  intros Hw Hh Hr. unfold render_with.
  rewrite (surface_imageData _ _ _ _ Hsurface Hw Hh Hr).
  rewrite (surface_width _ _ _ _ Hsurface), (surface_height _ _ _ _ Hsurface).
  rewrite scan_run. cbn [img_data img_width img_height]. reflexivity.
Qed.

(** The colour computation never throws: the frame is committed. *)
Lemma render_normal :
  0 < w -> 0 < h -> 0 < r ->
  total_on color_at w h (scan_order w h) ->
  exists v',
    render_with color_at v =
      mkRendered v' (Normal tt) (with_cursor 0 (scan_order w h)) /\
    is_surface w h r v' /\
    bitmap (Viewport.canvas v') = frame color_at w h (bitmap (Viewport.canvas v)) /\
    committed (Viewport.canvas v') =
      committed (Viewport.canvas v)
        ++ [mkImageData (Z.to_nat (w * r)) (Z.to_nat (h * r))
              (frame color_at w h (bitmap (Viewport.canvas v)))].
Proof.
  intros Hw Hh Hr Htot. rewrite (render_run Hw Hh Hr). unfold frame.
  destruct (run_body_total color_at w h (scan_order w h)
              (mkLoop (bitmap (Viewport.canvas v)) 0 []) Htot)
    as (st & Hrun & _ & Hcalls & Hlen).
  rewrite Hrun. cbn [fst calls data index app] in *.
  destruct (surface_set_imageData w h r v (data st) Hsurface Hlen)
    as (v' & Hset & Hsurf' & Hbitmap & Hcommitted).
  exists v'. rewrite Hset, Hcalls.
  split; [reflexivity|]. split; [exact Hsurf'|]. split; assumption.
Qed.

(** The colour computation throws somewhere: nothing is committed and
    the exception is one the colour computation threw. *)
Lemma render_throw x y e :
  0 < r -> 0 <= x < w -> 0 <= y < h ->
  color_at x y w h = Throw e ->
  exists e' evals,
    render_with color_at v = mkRendered v (Throw e') evals /\
    exists i j, 0 <= i < w /\ 0 <= j < h /\ color_at i j w h = Throw e'.
Proof.
  intros Hr Hx Hy Hc. rewrite render_run by lia.
  destruct (run_body color_at w h (scan_order w h)
              (mkLoop (bitmap (Viewport.canvas v)) 0 [])) as [st [e'|]] eqn:Hrun.
  - exists e', (calls st). split; [reflexivity|].
    destruct (run_body_exn_source _ _ _ _ _ _ _ Hrun) as (i & j & Hin & Hthrow).
    apply scan_order_elem in Hin. exists i, j. tauto.
  - apply run_body_normal_total in Hrun.
    destruct (Hrun x y (scan_order_elem_of w h x y Hx Hy)) as [rgb Hrgb].
    congruence.
Qed.

End Render.

(* ===================================================================== *)
(** ** Facts shared by the claims *)
(* ===================================================================== *)

Lemma total_in_frame_scan color_at w h :
  total_in_frame color_at w h -> total_on color_at w h (scan_order w h).
Proof.
  intros Htot i j Hin. apply scan_order_elem in Hin as [Hi Hj]. now apply Htot.
Qed.

Lemma gradient_total w h : total_in_frame gradient w h.
Proof. intros x y _ _. eexists. reflexivity. Qed.

Lemma committed_since_app before after bs :
  committed (Viewport.canvas after) = committed (Viewport.canvas before) ++ bs ->
  committed_since before after = bs.
Proof. intros Heq. unfold committed_since. rewrite Heq. apply drop_app_length. Qed.

Lemma committed_since_same v : committed_since v v = [].
Proof. unfold committed_since. apply drop_all. Qed.

(** Where the colour of [(x, y)] goes lies inside the first [4 * w * h]
    bytes. *)
Lemma cursor_bounds w h x y :
  0 <= x < w -> 0 <= y < h ->
  0 <= 4 * ((h - 1 - y) * w + x) /\ 4 * ((h - 1 - y) * w + x) + 4 <= 4 * w * h.
Proof. intros Hx Hy. nia. Qed.

(** The backing store has room for every logical pixel when the ratio
    is at least one. *)
Lemma ratio_grows w h r :
  0 <= w -> 0 <= h -> 1 <= r -> w * h <= (w * r) * (h * r).
Proof.
  intros Hw Hh Hr. assert (w <= w * r) by nia. assert (h <= h * r) by nia.
  apply Z.mul_le_mono_nonneg; lia.
Qed.

(** The scan order, written out: the rows from the last to the first,
    each from column [0] to the last column. *)
Lemma scan_order_rows w h :
  scan_order w h = reverse (seqZ 0 h) ≫= (fun y => (fun x => (x, y)) <$> seqZ 0 w).
Proof.
  unfold scan_order, rows_down, row_from.
  replace (h - 1 + 1) with h by lia. now rewrite Z.sub_0_r.
Qed.

Lemma with_cursor_elem start ps i j cursor :
  (i, j, cursor) ∈ with_cursor start ps ->
  exists k, (k < length ps)%nat /\ cursor = start + 4 * Z.of_nat k.
Proof.
  intros Hin. apply list_elem_of_lookup_1 in Hin as [k Hk].
  rewrite with_cursor_lookup in Hk.
  destruct (ps !! k) as [p|] eqn:Hp; [|discriminate].
  exists k. split; [now apply lookup_lt_Some in Hp|].
  cbn in Hk. congruence.
Qed.

Lemma with_cursor_cursors ps :
  (fun e : Z * Z * Z => e.2) <$> with_cursor 0 ps
  = (fun k => 4 * k) <$> seqZ 0 (Z.of_nat (length ps)).
Proof.
  apply list_eq. intros k. rewrite !list_lookup_fmap, with_cursor_lookup.
  destruct (ps !! k) as [p|] eqn:Hp.
  - rewrite lookup_seqZ_lt by (apply lookup_lt_Some in Hp; lia). reflexivity.
  - rewrite lookup_seqZ_ge by (apply lookup_ge_None_1 in Hp; lia). reflexivity.
Qed.

(** Whether or not a run ends with an exception, its evaluations are the
    first ones of the run over the whole list. *)
Lemma run_body_calls_prefix color_at nx ny ps st :
  exists k,
    calls (run_body color_at nx ny ps st).1
    = calls st ++ with_cursor (index st) (take k ps).
Proof.
  revert st. induction ps as [| [i j] ps IH]; intros st.
  - exists 0%nat. cbn. now rewrite app_nil_r.
  - cbn [run_body]. destruct (color_at i j nx ny) as [rgb | e] eqn:Hc.
    + rewrite (body_normal _ _ _ _ _ _ _ Hc).
      match goal with |- context [run_body _ _ _ _ ?s] =>
        destruct (IH s) as [k Hk] end.
      exists (S k). rewrite Hk. cbn [calls index take].
      rewrite with_cursor_cons, <- app_assoc. reflexivity.
    + rewrite (body_throw _ _ _ _ _ _ _ Hc). exists 1%nat.
      cbn [fst calls take]. rewrite take_0, with_cursor_cons. reflexivity.
Qed.

(** The number of colour evaluations of one call of [render]: one per
    logical pixel. *)
Lemma render_evaluations_count color_at w h r v :
  is_surface w h r v -> 0 < r -> total_in_frame color_at w h ->
  Z.of_nat (length (evaluations (render_with color_at v))) = w * h.
Proof.
  intros Hs Hr Htot. pose proof Hs as (Hw & Hh & _).
  destruct (decide (w = 0 \/ h = 0)) as [Hz | Hpos].
  - rewrite (render_empty color_at w h r v Hs) by tauto. cbn. nia.
  - destruct (render_normal color_at w h r v Hs) as (v' & -> & _);
      [lia | lia | lia | now apply total_in_frame_scan |].
    cbn [evaluations]. rewrite with_cursor_length, scan_order_length. nia.
Qed.

(** A surface of ratio one, straight from the constructor, rendered once:
    the colour of the logical pixel [(x, y)] is the pixel of column [x] in
    row [h - 1 - y] of the committed image, with alpha 255. *)
Lemma fresh_render_pixel color_at c w h v :
  Viewport.create (Some c) w h 1 = Normal v ->
  0 < w -> 0 < h ->
  total_in_frame color_at w h ->
  exists B,
    outcome (render_with color_at v) = Normal tt /\
    committed_since v (viewport_after (render_with color_at v)) = [B] /\
    img_width B = Z.to_nat w /\ img_height B = Z.to_nat h /\
    forall x y rgb,
      0 <= x < w -> 0 <= y < h ->
      color_at x y w h = Normal rgb ->
      image_pixel B x (h - 1 - y) =
      [Some (ToUint8Clamp (channel rgb 0)); Some (ToUint8Clamp (channel rgb 1));
       Some (ToUint8Clamp (channel rgb 2)); Some 255].
Proof.
  intros Hcreate Hw Hh Htot.
  assert (context2d c = true) as Hctx.
  { unfold Viewport.create, Viewport.constructor in Hcreate.
    destruct (context2d c); [reflexivity | discriminate]. }
  destruct (create_surface c w h 1 Hctx) as (v0 & Hcreate0 & Hs & Hwhite & _);
    [lia | lia | lia |].
  rewrite Hcreate in Hcreate0. apply Normal_inj in Hcreate0. subst v0.
  pose proof (total_in_frame_scan _ _ _ Htot) as Htot'.
  destruct (render_normal color_at w h 1 v Hs) as (v' & -> & _ & _ & Hcomm);
    [lia | lia | lia | exact Htot' |].
  cbn [outcome viewport_after]. eexists. split; [reflexivity|].
  split; [exact (committed_since_app _ _ _ Hcomm)|].
  cbn [img_width img_height]. rewrite !Z.mul_1_r.
  split; [reflexivity|]. split; [reflexivity|].
  intros x y rgb Hx Hy Hc. unfold image_pixel. cbn [img_width img_data].
  pose proof (cursor_bounds w h x y Hx Hy) as Hcur.
  assert (Z.of_nat (length (bitmap (Viewport.canvas v))) = 4 * w * h) as Hlen.
  { rewrite (surface_bitmap_length _ _ _ _ Hs). lia. }
  replace ((h - 1 - y) * (Z.of_nat (Z.to_nat w) * 4) + x * 4)
    with (4 * ((h - 1 - y) * w + x)) by lia.
  assert (forall n, 0 <= n < 4 * w * h ->
            array_get (bitmap (Viewport.canvas v)) n = Some 255) as Hsnap.
  { intros n Hn. replace n with (Z.of_nat (Z.to_nat n)) by lia.
    rewrite array_get_of_nat, Hwhite. apply lookup_replicate_2.
    rewrite Hwhite, length_replicate in Hlen. lia. }
  rewrite <- (Z.add_0_r (4 * ((h - 1 - y) * w + x))) at 1.
  rewrite !(frame_get_written color_at w h _ x y rgb _ Htot' Hx Hy Hc) by lia.
  rewrite frame_get_other.
  - rewrite !Hsnap by lia. reflexivity.
  - right. rewrite <- Z.add_mod_idemp_l by lia.
    rewrite Z.mul_comm, Z.mod_mul by lia. reflexivity.
Qed.

(** [setup] on a page with a canvas that has a 2d context, a render
    button and a device pixel ratio of one, then [render]: the four
    corners of the committed 640 x 480 image. *)
Lemma gradient_page_corners c :
  context2d c = true ->
  exists v B,
    setup (mkDocument (Some c) true (Some 1)) = (Some v, Normal tt) /\
    outcome (render v) = Normal tt /\
    committed_since v (viewport_after (render v)) = [B] /\
    img_width B = 640%nat /\ img_height B = 480%nat /\
    image_pixel B 0 0 = [Some 0; Some 255; Some 51; Some 255] /\
    image_pixel B 639 479 = [Some 255; Some 0; Some 51; Some 255] /\
    image_pixel B 0 479 = [Some 0; Some 0; Some 51; Some 255] /\
    image_pixel B 639 0 = [Some 255; Some 255; Some 51; Some 255].
Proof.
  intros Hctx.
  destruct (create_surface c 640 480 1 Hctx) as (v & Hcreate & _);
    [lia | lia | lia |].
  destruct (fresh_render_pixel gradient c 640 480 v Hcreate)
    as (B & Hout & Hcomm & Hwidth & Hheight & Hpixel);
    [lia | lia | apply gradient_total |].
  exists v, B. unfold setup. cbn [canvas_element render_button].
  change (devicePixelRatio (mkDocument (Some c) true (Some 1))) with 1.
  rewrite Hcreate. split; [reflexivity|].
  split; [exact Hout|]. split; [exact Hcomm|].
  split; [exact Hwidth|]. split; [exact Hheight|].
  split; [|split; [|split]].
  - exact (Hpixel 0 479 (0, 255, 51) ltac:(lia) ltac:(lia)
             ltac:(vm_compute; reflexivity)).
  - exact (Hpixel 639 0 (255, 0, 51) ltac:(lia) ltac:(lia)
             ltac:(vm_compute; reflexivity)).
  - exact (Hpixel 0 0 (0, 0, 51) ltac:(lia) ltac:(lia)
             ltac:(vm_compute; reflexivity)).
  - exact (Hpixel 639 479 (255, 255, 51) ltac:(lia) ltac:(lia)
             ltac:(vm_compute; reflexivity)).
Qed.

(** Hypotheses on concrete surfaces are settled by evaluation. *)
Ltac surface_by_evaluation :=
  unfold is_surface, canvas_ok; repeat split; try lia; vm_compute; reflexivity.

(* ===================================================================== *)
(** ** The claims *)
(* ===================================================================== *)

(** C1 (evaluated on a surface of logical size 2 x 2 with pixel ratio 2):
    one call of [render] evaluates the colour four times, once per logical
    pixel, while the backing store has 4 x 4 = 16 pixels; the twelve
    pixels after the first four keep what they had. *)
Theorem render_evaluations_ratio2 :
  let v := example_viewport 2 2 2 in
  let result := render v in
  is_surface 2 2 2 v /\
  outcome result = Normal tt /\
  length (evaluations result) = 4%nat /\
  (canvas_width (Viewport.canvas v) * canvas_height (Viewport.canvas v))%nat
    = 16%nat /\
  drop 16 (bitmap (Viewport.canvas (viewport_after result)))
    = drop 16 (bitmap (Viewport.canvas v)).
Proof.
  cbv zeta. split.
  - unfold is_surface, canvas_ok. repeat split; try lia; vm_compute; reflexivity.
  - repeat split; vm_compute; reflexivity.
Qed.

(** C2, counterexample: on a 2 x 2 surface (ratio 1) the setter is given
    a 1 x 1 buffer.  Width, height and length all disagree with the
    surface, yet the call completes normally and the first pixel of the
    surface has changed from white to red. *)
Lemma commit_mismatch_accepted :
  let v := example_viewport 2 2 1 in
  img_width one_red_pixel <> canvas_width (Viewport.canvas v) /\
  img_height one_red_pixel <> canvas_height (Viewport.canvas v) /\
  length (img_data one_red_pixel) <> length (bitmap (Viewport.canvas v)) /\
  exists v',
    Viewport.set_imageData one_red_pixel v = Normal v' /\
    bitmap (Viewport.canvas v) !! 1%nat = Some 255 /\
    bitmap (Viewport.canvas v') !! 1%nat = Some 0.
Proof.
  cbv zeta. repeat split; try (vm_compute; discriminate).
  eexists. repeat split; vm_compute; reflexivity.
Qed.

(** C2, as amended: the setter compares no sizes and has no failure for
    them.  For any buffer it completes normally and the surface keeps its
    size.  The buffer is placed at the origin: a pixel of the surface that
    the buffer does not cover keeps its bytes, and a pixel that the
    buffer covers with an opaque pixel takes the four bytes of that
    pixel. *)
Theorem commit_unchecked v img :
  canvas_ok (Viewport.canvas v) ->
  length (img_data img) = (4 * img_width img * img_height img)%nat ->
  exists v',
    Viewport.set_imageData img v = Normal v' /\
    canvas_width (Viewport.canvas v') = canvas_width (Viewport.canvas v) /\
    canvas_height (Viewport.canvas v') = canvas_height (Viewport.canvas v) /\
    committed (Viewport.canvas v') = committed (Viewport.canvas v) ++ [img] /\
    forall x y : nat,
      (x < canvas_width (Viewport.canvas v))%nat ->
      (y < canvas_height (Viewport.canvas v))%nat ->
      ((x <? img_width img)%nat && (y <? img_height img)%nat = false ->
       forall k : nat, (k < 4)%nat ->
         pixel_byte (Viewport.canvas v') x y k
         = pixel_byte (Viewport.canvas v) x y k) /\
      ((x <? img_width img)%nat && (y <? img_height img)%nat = true ->
       img_data img !! (4 * (y * img_width img + x) + 3)%nat = Some 255 ->
       forall k : nat, (k < 4)%nat ->
         img_data img !! (4 * (y * img_width img + x) + k)%nat
         = Some (pixel_byte (Viewport.canvas v') x y k)).
Proof.
  intros Hok Himg. unfold Viewport.set_imageData.
  destruct (putImageData img (Viewport.canvas v)) as [c' | e] eqn:Hput;
    [|discriminate].
  exists (Viewport.mk c'). split; [reflexivity|].
  cbn [Viewport.canvas].
  repeat (split; [unfold putImageData in Hput; apply Normal_inj in Hput;
                  subst c'; reflexivity|]).
  intros x y Hx Hy. split.
  - intros Hout k Hk.
    rewrite (putImageData_pixel img _ c' x y k Hok Himg Hput Hx Hy Hk).
    now rewrite Hout.
  - intros Hin _ k Hk.
    rewrite (putImageData_pixel img _ c' x y k Hok Himg Hput Hx Hy Hk).
    rewrite Hin. apply andb_prop in Hin as [Hix Hiy].
    apply Nat.ltb_lt in Hix, Hiy.
    destruct (lookup_lt_is_Some_2 (img_data img) (4 * (y * img_width img + x) + k))
      as [b ->]; [rewrite Himg; nia | reflexivity].
Qed.
Lemma commit_unchecked_witness :
  exists v',
    Viewport.set_imageData one_red_pixel (example_viewport 2 2 1) = Normal v' /\
    canvas_width (Viewport.canvas v')
      = canvas_width (Viewport.canvas (example_viewport 2 2 1)) /\
    canvas_height (Viewport.canvas v')
      = canvas_height (Viewport.canvas (example_viewport 2 2 1)) /\
    committed (Viewport.canvas v')
      = committed (Viewport.canvas (example_viewport 2 2 1)) ++ [one_red_pixel] /\
    forall x y : nat,
      (x < canvas_width (Viewport.canvas (example_viewport 2 2 1)))%nat ->
      (y < canvas_height (Viewport.canvas (example_viewport 2 2 1)))%nat ->
      ((x <? img_width one_red_pixel)%nat && (y <? img_height one_red_pixel)%nat
       = false ->
       forall k : nat, (k < 4)%nat ->
         pixel_byte (Viewport.canvas v') x y k
         = pixel_byte (Viewport.canvas (example_viewport 2 2 1)) x y k) /\
      ((x <? img_width one_red_pixel)%nat && (y <? img_height one_red_pixel)%nat
       = true ->
       img_data one_red_pixel !! (4 * (y * img_width one_red_pixel + x) + 3)%nat
       = Some 255 ->
       forall k : nat, (k < 4)%nat ->
         img_data one_red_pixel !! (4 * (y * img_width one_red_pixel + x) + k)%nat
         = Some (pixel_byte (Viewport.canvas v') x y k)).
Proof.
  apply (commit_unchecked (example_viewport 2 2 1) one_red_pixel);
    vm_compute; reflexivity.
Defined.
(** C3, counterexample: a 1 x 1 surface is cleared and then rendered.
    The loop visits its one pixel at cursor 0 and the committed buffer has
    alpha 0 there: the fourth byte is the one the snapshot had, not 255. *)
Lemma render_leaves_alpha :
  let v := Viewport.clear (example_viewport 1 1 1) in
  let result := render v in
  outcome result = Normal tt /\
  evaluations result = [(0, 0, 0)] /\
  committed_since v (viewport_after result) = [mkImageData 1 1 [0; 0; 51; 0]].
Proof. cbv zeta. repeat split; vm_compute; reflexivity. Qed.

(** C3, as amended: for every pixel the loop visits, the three bytes at
    its cursor receive the clamped red, green and blue of its colour; the
    fourth byte is not written and is the byte of the acquired snapshot.
    On a surface that comes straight from the constructor that byte is
    255, from the white fill. *)
Theorem render_writes_three_channels color_at w h r v x y rgb :
  is_surface w h r v -> 1 <= r ->
  total_in_frame color_at w h ->
  0 <= x < w -> 0 <= y < h ->
  color_at x y w h = Normal rgb ->
  let cursor := 4 * ((h - 1 - y) * w + x) in
  let result := render_with color_at v in
  (x, y, cursor) ∈ evaluations result /\
  exists B,
    committed_since v (viewport_after result) = [B] /\
    (forall c, 0 <= c < 3 ->
       array_get (img_data B) (cursor + c) = Some (ToUint8Clamp (channel rgb c))) /\
    array_get (img_data B) (cursor + 3)
      = array_get (bitmap (Viewport.canvas v)) (cursor + 3) /\
    forall canvas,
      Viewport.create (Some canvas) w h r = Normal v ->
      array_get (img_data B) (cursor + 3) = Some 255.
Proof.
  intros Hs Hr Htot Hx Hy Hc cursor result.
  pose proof (total_in_frame_scan _ _ _ Htot) as Htot'.
  destruct (render_normal color_at w h r v Hs) as (v' & Hrender & _ & _ & Hcomm);
    [lia | lia | lia | exact Htot' |].
  subst result. rewrite Hrender. cbn [evaluations viewport_after].
  pose proof (cursor_bounds w h x y Hx Hy) as Hcur. fold cursor in Hcur.
  pose proof (surface_bitmap_length _ _ _ _ Hs) as Hlen.
  assert (4 * w * h <= Z.of_nat (length (bitmap (Viewport.canvas v)))) as Hfit.
  { pose proof (ratio_grows w h r ltac:(lia) ltac:(lia) Hr). lia. }
  split.
  - apply (list_elem_of_lookup_2 _ (Z.to_nat ((h - 1 - y) * w + x))).
    rewrite with_cursor_lookup, scan_order_lookup by assumption.
    cbn. do 3 f_equal. unfold cursor. nia.
  - eexists. split; [exact (committed_since_app _ _ _ Hcomm)|].
    cbn [img_data]. split; [|split].
    + intros c Hrange. unfold cursor.
      rewrite (frame_get_written color_at w h _ x y rgb c Htot' Hx Hy Hc Hrange).
      fold cursor.
      destruct (array_get_lt_Some (bitmap (Viewport.canvas v)) (cursor + c))
        as [b ->]; [lia | reflexivity].
    + apply frame_get_other. right. unfold cursor.
      rewrite <- Z.add_mod_idemp_l by lia. rewrite Z.mul_comm, Z.mod_mul by lia.
      reflexivity.
    + intros canvas Hcreate. rewrite frame_get_other.
      * assert (context2d canvas = true) as Hctx.
        { unfold Viewport.create, Viewport.constructor in Hcreate.
          destruct (context2d canvas); [reflexivity | discriminate]. }
        destruct Hs as (Hw & Hh & Hr0 & _).
        destruct (create_surface canvas w h r Hctx Hw Hh Hr0)
          as (v0 & Hcreate0 & _ & Hwhite & _).
        rewrite Hcreate in Hcreate0. apply Normal_inj in Hcreate0. subst v0.
        rewrite Hwhite in *. rewrite length_replicate in Hlen, Hfit.
        replace (cursor + 3) with (Z.of_nat (Z.to_nat (cursor + 3))) by lia.
        rewrite array_get_of_nat. apply lookup_replicate_2. lia.
      * right. unfold cursor.
        rewrite <- Z.add_mod_idemp_l by lia. rewrite Z.mul_comm, Z.mod_mul by lia.
        reflexivity.
Qed.

Lemma render_writes_three_channels_witness :
  let v := example_viewport 2 2 2 in
  let result := render_with gradient v in
  (1, 0, 12) ∈ evaluations result /\
  exists B,
    committed_since v (viewport_after result) = [B] /\
    (forall c, 0 <= c < 3 ->
       array_get (img_data B) (12 + c)
       = Some (ToUint8Clamp (channel (127, 0, 51) c))) /\
    array_get (img_data B) (12 + 3)
      = array_get (bitmap (Viewport.canvas v)) (12 + 3) /\
    forall canvas,
      Viewport.create (Some canvas) 2 2 2 = Normal v ->
      array_get (img_data B) (12 + 3) = Some 255.
Proof.
  apply (render_writes_three_channels gradient 2 2 2 (example_viewport 2 2 2)
           1 0 (127, 0, 51)).
  - surface_by_evaluation.
  - lia.
  - intros x y _ _. eexists. reflexivity.
  - lia.
  - lia.
  - vm_compute. reflexivity.
Defined.

(** C4, counterexample: in the committed frame of the 640 x 480 scenario
    the pixel (0, 0) has green 255, and the pixel that holds the colour
    computed for the coordinate (0, 0), in the last row, has green 0.
    Neither is within 63 of the 191 the claim gives. *)
Lemma gradient_origin_not_191 :
  exists v B,
    setup example_page = (Some v, Normal tt) /\
    committed_since v (viewport_after (render v)) = [B] /\
    image_pixel B 0 0 = [Some 0; Some 255; Some 51; Some 255] /\
    ~ approx 63 255 191 /\
    image_pixel B 0 479 = [Some 0; Some 0; Some 51; Some 255] /\
    ~ approx 63 0 191.
Proof.
  destruct (gradient_page_corners empty_canvas eq_refl)
    as (v & B & Hsetup & _ & Hcomm & _ & _ & Htop & _ & Hbottom & _).
  exists v, B. unfold approx. repeat split; try assumption; cbn; lia.
Qed.

(** C4, as amended: in the 640 x 480 scenario with ratio one, the frame
    committed by [render] has pixel (0, 0) equal to (0, 255, 51, 255) and
    pixel (639, 479) equal to (255, 0, 51, 255), which is within one of
    (254, 0, 51, 255).  The colour computed for the coordinate (0, 0),
    (0, 0, 51), is in pixel (0, 479), and the one computed for
    (639, 479), (255, 255, 51), is in pixel (639, 0). *)
Theorem gradient_frame_640x480 c :
  context2d c = true ->
  exists v B,
    setup (mkDocument (Some c) true (Some 1)) = (Some v, Normal tt) /\
    is_surface 640 480 1 v /\
    outcome (render v) = Normal tt /\
    committed_since v (viewport_after (render v)) = [B] /\
    img_width B = 640%nat /\ img_height B = 480%nat /\
    image_pixel B 0 0 = [Some 0; Some 255; Some 51; Some 255] /\
    image_pixel B 639 479 = [Some 255; Some 0; Some 51; Some 255] /\
    approx 1 255 254 /\
    gradient 0 0 640 480 = Normal (0, 0, 51) /\
    image_pixel B 0 479 = [Some 0; Some 0; Some 51; Some 255] /\
    gradient 639 479 640 480 = Normal (255, 255, 51) /\
    image_pixel B 639 0 = [Some 255; Some 255; Some 51; Some 255].
Proof.
  intros Hctx.
  destruct (gradient_page_corners c Hctx)
    as (v & B & Hsetup & Hout & Hcomm & Hwidth & Hheight & H00 & H11 & H01 & H10).
  exists v, B. split; [exact Hsetup|]. split.
  - destruct (create_surface c 640 480 1 Hctx) as (v0 & Hcreate & Hs & _);
      [lia | lia | lia |].
    unfold setup in Hsetup. cbn [canvas_element render_button] in Hsetup.
    change (devicePixelRatio (mkDocument (Some c) true (Some 1))) with 1 in Hsetup.
    rewrite Hcreate in Hsetup. congruence.
  - repeat split; try assumption; try (vm_compute; reflexivity).
    unfold approx. cbn. lia.
Qed.

Lemma gradient_frame_640x480_witness :
  exists v B,
    setup (mkDocument (Some empty_canvas) true (Some 1)) = (Some v, Normal tt) /\
    is_surface 640 480 1 v /\
    outcome (render v) = Normal tt /\
    committed_since v (viewport_after (render v)) = [B] /\
    img_width B = 640%nat /\ img_height B = 480%nat /\
    image_pixel B 0 0 = [Some 0; Some 255; Some 51; Some 255] /\
    image_pixel B 639 479 = [Some 255; Some 0; Some 51; Some 255] /\
    approx 1 255 254 /\
    gradient 0 0 640 480 = Normal (0, 0, 51) /\
    image_pixel B 0 479 = [Some 0; Some 0; Some 51; Some 255] /\
    gradient 639 479 640 480 = Normal (255, 255, 51) /\
    image_pixel B 639 0 = [Some 255; Some 255; Some 51; Some 255].
Proof. apply (gradient_frame_640x480 empty_canvas). reflexivity. Defined.

(** C5: one call of [render] evaluates the colour in the order of the
    rows [y = h - 1] down to [0], within a row for [x = 0] up to [w - 1],
    with a write cursor that starts at [0] and grows by four with each
    evaluation.  So the colour of [(x, y)] is evaluation number
    [(h - 1 - y) * w + x], made with the cursor at
    [4 * ((h - 1 - y) * w + x)], and its three channels are in the
    committed buffer from that offset on. *)
Theorem render_scan_order color_at w h r v :
  is_surface w h r v -> 1 <= r ->
  total_in_frame color_at w h ->
  let result := render_with color_at v in
  evaluations result =
    with_cursor 0
      (reverse (seqZ 0 h) ≫= (fun y => (fun x => (x, y)) <$> seqZ 0 w)) /\
  forall x y rgb,
    0 <= x < w -> 0 <= y < h ->
    color_at x y w h = Normal rgb ->
    evaluations result !! Z.to_nat ((h - 1 - y) * w + x)
      = Some (x, y, 4 * ((h - 1 - y) * w + x)) /\
    exists B,
      committed_since v (viewport_after result) = [B] /\
      forall c, 0 <= c < 3 ->
        array_get (img_data B) (4 * ((h - 1 - y) * w + x) + c)
        = Some (ToUint8Clamp (channel rgb c)).
Proof.
  intros Hs Hr Htot result. subst result. rewrite <- scan_order_rows.
  pose proof (total_in_frame_scan _ _ _ Htot) as Htot'.
  pose proof Hs as (Hw & Hh & _).
  destruct (decide (w = 0 \/ h = 0)) as [Hz | Hpos].
  - rewrite (render_empty color_at w h r v Hs) by tauto. cbn [evaluations].
    split; [|intros; lia].
    assert (scan_order w h = []) as ->; [|reflexivity].
    apply length_zero_iff_nil. rewrite scan_order_length. lia.
  - destruct (render_normal color_at w h r v Hs) as (v' & -> & _ & _ & Hcomm);
      [lia | lia | lia | exact Htot' |].
    cbn [evaluations viewport_after]. split; [reflexivity|].
    intros x y rgb Hx Hy Hc. split.
    + rewrite with_cursor_lookup, scan_order_lookup by assumption.
      cbn. do 3 f_equal. nia.
    + eexists. split; [exact (committed_since_app _ _ _ Hcomm)|].
      cbn [img_data]. intros c Hrange.
      rewrite (frame_get_written color_at w h _ x y rgb c Htot' Hx Hy Hc Hrange).
      pose proof (cursor_bounds w h x y Hx Hy) as Hcur.
      pose proof (surface_bitmap_length _ _ _ _ Hs) as Hlen.
      pose proof (ratio_grows w h r Hw Hh Hr).
      destruct (array_get_lt_Some (bitmap (Viewport.canvas v))
                  (4 * ((h - 1 - y) * w + x) + c)) as [b ->]; [lia | reflexivity].
Qed.

Lemma render_scan_order_witness :
  let result := render_with gradient (example_viewport 2 2 2) in
  evaluations result =
    with_cursor 0
      (reverse (seqZ 0 2) ≫= (fun y => (fun x => (x, y)) <$> seqZ 0 2)) /\
  forall x y rgb,
    0 <= x < 2 -> 0 <= y < 2 ->
    gradient x y 2 2 = Normal rgb ->
    evaluations result !! Z.to_nat ((2 - 1 - y) * 2 + x)
      = Some (x, y, 4 * ((2 - 1 - y) * 2 + x)) /\
    exists B,
      committed_since (example_viewport 2 2 2) (viewport_after result) = [B] /\
      forall c, 0 <= c < 3 ->
        array_get (img_data B) (4 * ((2 - 1 - y) * 2 + x) + c)
        = Some (ToUint8Clamp (channel rgb c)).
Proof.
  apply (render_scan_order gradient 2 2 2 (example_viewport 2 2 2)).
  - surface_by_evaluation.
  - lia.
  - intros x y _ _. eexists. reflexivity.
Defined.

(** C6: after the constructor has returned a viewport for the sizes
    [width] and [height] (pixel counts), [width] and [height] of the
    viewport are those sizes whatever the pixel ratio, and they are still
    those sizes after any sequence of [fill], [clear], [imageData]
    assignments and [render] calls. *)
Theorem viewport_logical_size c width height pixelRatio v :
  0 <= width -> 0 <= height ->
  Viewport.create (Some c) width height pixelRatio = Normal v ->
  forall ops,
    Viewport.width (perform_all v ops) = Int width /\
    Viewport.height (perform_all v ops) = Int height.
Proof.
  intros Hwidth Hheight Hcreate ops. unfold Viewport.create, Viewport.constructor in Hcreate.
  destruct (context2d c); [|discriminate]. apply Normal_inj in Hcreate. subst v.
  destruct (perform_all_style
              (Viewport.fill "white" (Viewport.setSize width height pixelRatio (Viewport.mk c)))
              ops) as [Hw Hh].
  destruct (perform_style (Viewport.setSize width height pixelRatio (Viewport.mk c))
              (OpFill "white")) as [Hw' Hh'].
  cbn [perform] in Hw', Hh'.
  unfold Viewport.width, Viewport.height. rewrite Hw, Hh, Hw', Hh', setSize_canvas.
  cbv [style_width style_height]. split; apply parseInt_px.
Qed.

Lemma viewport_logical_size_witness :
  Viewport.width
    (perform_all (example_viewport 3 2 2)
       [OpClear; OpRender gradient; OpSetImageData one_red_pixel; OpFill "red"])
    = Int 3 /\
  Viewport.height
    (perform_all (example_viewport 3 2 2)
       [OpClear; OpRender gradient; OpSetImageData one_red_pixel; OpFill "red"])
    = Int 2.
Proof.
  apply (viewport_logical_size empty_canvas 3 2 2 (example_viewport 3 2 2));
    [lia | lia | reflexivity].
Defined.

(** C7: when the colour computation throws at a pixel of the surface, the
    call of [render] ends with an exception, the viewport is exactly what
    it was (so the displayed pixels are the previous ones) and the setter
    was not called.  On a surface with a backing store ([1 <= r]) the
    exception is one thrown by the colour computation at a pixel. *)
Theorem render_color_failure color_at w h r v x y e :
  is_surface w h r v ->
  0 <= x < w -> 0 <= y < h ->
  color_at x y w h = Throw e ->
  let result := render_with color_at v in
  viewport_after result = v /\
  committed_since v (viewport_after result) = [] /\
  exists e',
    outcome result = Throw e' /\
    (1 <= r ->
     exists i j, 0 <= i < w /\ 0 <= j < h /\ color_at i j w h = Throw e').
Proof.
  intros Hs Hx Hy Hc result. subst result.
  destruct (decide (r = 0)) as [-> | Hr].
  - rewrite (render_empty color_at w h 0 v Hs) by tauto.
    cbn [viewport_after outcome]. split; [reflexivity|].
    split; [apply committed_since_same|]. eexists. split; [reflexivity | lia].
  - assert (0 < r) as Hr' by (destruct Hs as (_ & _ & ? & _); lia).
    destruct (render_throw color_at w h r v Hs x y e Hr' Hx Hy Hc)
      as (e' & evals & -> & Hsource).
    cbn [viewport_after outcome]. split; [reflexivity|].
    split; [apply committed_since_same|]. exists e'. split; [reflexivity|].
    intros _. exact Hsource.
Qed.

Lemma render_color_failure_witness :
  let result := render_with failing_color (example_viewport 2 2 2) in
  viewport_after result = example_viewport 2 2 2 /\
  committed_since (example_viewport 2 2 2) (viewport_after result) = [] /\
  exists e',
    outcome result = Throw e' /\
    (1 <= 2 ->
     exists i j, 0 <= i < 2 /\ 0 <= j < 2 /\ failing_color i j 2 2 = Throw e').
Proof.
  apply (render_color_failure failing_color 2 2 2 (example_viewport 2 2 2)
           1 0 (Error "no colour here")).
  - surface_by_evaluation.
  - lia.
  - lia.
  - reflexivity.
Defined.

(** C8: two calls of [render] in succession, with the same colour
    computation, end the same way and commit the same buffers: whatever
    the second call hands to the setter is bit for bit what the first call
    handed to it.  When the surface has pixels and the colour computation
    never throws, each call commits exactly one buffer. *)
Theorem render_twice color_at w h r v :
  is_surface w h r v ->
  let first := render_with color_at v in
  let second := render_with color_at (viewport_after first) in
  outcome second = outcome first /\
  committed_since (viewport_after first) (viewport_after second)
    = committed_since v (viewport_after first) /\
  (0 < w -> 0 < h -> 1 <= r -> total_in_frame color_at w h ->
   exists B,
     outcome first = Normal tt /\
     committed_since v (viewport_after first) = [B]).
Proof.
  intros Hs first second. subst first second.
  pose proof Hs as (Hw & Hh & Hr & _).
  destruct (decide (w = 0 \/ h = 0 \/ r = 0)) as [Hz | Hpos].
  - rewrite (render_empty color_at w h r v Hs Hz). cbn [viewport_after outcome].
    rewrite (render_empty color_at w h r v Hs Hz). cbn [viewport_after outcome].
    split; [reflexivity|]. split; [reflexivity|]. intros; lia.
  - assert (0 < w /\ 0 < h /\ 0 < r) as (Hw' & Hh' & Hr') by lia.
    destruct (run_body color_at w h (scan_order w h)
                (mkLoop (bitmap (Viewport.canvas v)) 0 [])) as [st [e|]] eqn:Hrun.
    + assert (render_with color_at v = mkRendered v (Throw e) (calls st)) as Hfirst.
      { rewrite (render_run color_at w h r v Hs Hw' Hh' Hr'). now rewrite Hrun. }
      rewrite Hfirst. cbn [viewport_after outcome]. rewrite Hfirst.
      cbn [viewport_after outcome].
      split; [reflexivity|]. split; [reflexivity|].
      intros _ _ _ Htot. apply total_in_frame_scan in Htot.
      destruct (run_body_total color_at w h _
                  (mkLoop (bitmap (Viewport.canvas v)) 0 []) Htot)
        as (st' & Hrun' & _). congruence.
    + pose proof (run_body_normal_total _ _ _ _ _ _ Hrun) as Htot.
      destruct (render_normal color_at w h r v Hs Hw' Hh' Hr' Htot)
        as (v1 & -> & Hs1 & Hbitmap1 & Hcomm1).
      cbn [viewport_after outcome].
      destruct (render_normal color_at w h r v1 Hs1 Hw' Hh' Hr' Htot)
        as (v2 & -> & _ & _ & Hcomm2).
      cbn [viewport_after outcome].
      rewrite (committed_since_app _ _ _ Hcomm1), (committed_since_app _ _ _ Hcomm2).
      rewrite Hbitmap1, (frame_idempotent color_at w h _ Htot).
      split; [reflexivity|]. split; [reflexivity|].
      intros _ _ _ _. eexists. split; reflexivity.
Qed.

Lemma render_twice_witness :
  let first := render_with gradient (example_viewport 2 2 2) in
  let second := render_with gradient (viewport_after first) in
  outcome second = outcome first /\
  committed_since (viewport_after first) (viewport_after second)
    = committed_since (example_viewport 2 2 2) (viewport_after first) /\
  (0 < 2 -> 0 < 2 -> 1 <= 2 -> total_in_frame gradient 2 2 ->
   exists B,
     outcome first = Normal tt /\
     committed_since (example_viewport 2 2 2) (viewport_after first) = [B]).
Proof.
  apply (render_twice gradient 2 2 2 (example_viewport 2 2 2)).
  surface_by_evaluation.
Defined.

(** C9: on a surface with pixel ratio above one the acquired buffer has
    [4 * w * h * r * r] bytes, and a buffer committed by [render] has the
    same length and, from offset [4 * w * h] on, the same bytes as the
    acquired snapshot.  When the surface has pixels and the colour
    computation never throws, the snapshot is acquired and one buffer is
    committed. *)
Theorem render_frame_effect color_at w h r v :
  is_surface w h r v -> 1 < r ->
  let result := render_with color_at v in
  (forall snapshot B,
     Viewport.imageData v = Normal snapshot ->
     B ∈ committed_since v (viewport_after result) ->
     Z.of_nat (length (img_data snapshot)) = 4 * w * h * r * r /\
     length (img_data B) = length (img_data snapshot) /\
     forall n, 4 * w * h <= n ->
       array_get (img_data B) n = array_get (img_data snapshot) n) /\
  (0 < w -> 0 < h -> total_in_frame color_at w h ->
   exists snapshot B,
     Viewport.imageData v = Normal snapshot /\
     committed_since v (viewport_after result) = [B]).
Proof.
  intros Hs Hr result. subst result.
  pose proof Hs as (Hw & Hh & _).
  pose proof (surface_bitmap_length _ _ _ _ Hs) as Hlen.
  destruct (decide (w = 0 \/ h = 0)) as [Hz | Hpos].
  - rewrite (render_empty color_at w h r v Hs) by tauto. cbn [viewport_after].
    rewrite committed_since_same. split; [|intros; lia].
    intros snapshot B _ HB. now apply elem_of_nil in HB.
  - assert (0 < w /\ 0 < h /\ 0 < r) as (Hw' & Hh' & Hr') by lia.
    rewrite (surface_imageData _ _ _ _ Hs Hw' Hh' Hr').
    destruct (run_body color_at w h (scan_order w h)
                (mkLoop (bitmap (Viewport.canvas v)) 0 [])) as [st [e|]] eqn:Hrun.
    + assert (render_with color_at v = mkRendered v (Throw e) (calls st)) as ->.
      { rewrite (render_run color_at w h r v Hs Hw' Hh' Hr'). now rewrite Hrun. }
      cbn [viewport_after]. rewrite committed_since_same. split.
      * intros snapshot B _ HB. now apply elem_of_nil in HB.
      * intros _ _ Htot. apply total_in_frame_scan in Htot.
        destruct (run_body_total color_at w h _
                    (mkLoop (bitmap (Viewport.canvas v)) 0 []) Htot)
          as (st' & Hrun' & _). congruence.
    + pose proof (run_body_normal_total _ _ _ _ _ _ Hrun) as Htot.
      destruct (render_normal color_at w h r v Hs Hw' Hh' Hr' Htot)
        as (v1 & -> & _ & _ & Hcomm).
      cbn [viewport_after]. rewrite (committed_since_app _ _ _ Hcomm). split.
      * intros snapshot B Hsnap HB. apply Normal_inj in Hsnap. subst snapshot.
        apply list_elem_of_singleton in HB. subst B. cbn [img_data].
        split; [lia|]. split; [apply frame_length|].
        intros n Hn. apply frame_get_other. left.
        rewrite scan_order_length. nia.
      * intros _ _ _. eexists _, _. split; reflexivity.
Qed.

Lemma render_frame_effect_witness :
  let result := render_with gradient (example_viewport 2 2 2) in
  (forall snapshot B,
     Viewport.imageData (example_viewport 2 2 2) = Normal snapshot ->
     B ∈ committed_since (example_viewport 2 2 2) (viewport_after result) ->
     Z.of_nat (length (img_data snapshot)) = 4 * 2 * 2 * 2 * 2 /\
     length (img_data B) = length (img_data snapshot) /\
     forall n, 4 * 2 * 2 <= n ->
       array_get (img_data B) n = array_get (img_data snapshot) n) /\
  (0 < 2 -> 0 < 2 -> total_in_frame gradient 2 2 ->
   exists snapshot B,
     Viewport.imageData (example_viewport 2 2 2) = Normal snapshot /\
     committed_since (example_viewport 2 2 2) (viewport_after result) = [B]).
Proof.
  apply (render_frame_effect gradient 2 2 2 (example_viewport 2 2 2)).
  - surface_by_evaluation.
  - lia.
Defined.

(** C10: on a surface with pixel ratio at least one, every evaluation of
    one call of [render] is made with its cursor inside the acquired
    buffer, whose length is [4 * w * h * r * r]: the cursor is not
    negative and even cursor + 3 is below [4 * w * h], hence below the
    length.  When the colour computation never throws, the cursors are
    [0, 4, ..., 4 * (w * h - 1)], in this order. *)
Theorem render_writes_in_bounds color_at w h r v :
  is_surface w h r v -> 1 <= r ->
  let result := render_with color_at v in
  (forall snapshot i j cursor,
     Viewport.imageData v = Normal snapshot ->
     (i, j, cursor) ∈ evaluations result ->
     Z.of_nat (length (img_data snapshot)) = 4 * w * h * r * r /\
     0 <= cursor /\ cursor + 3 < 4 * w * h /\
     cursor + 3 < Z.of_nat (length (img_data snapshot))) /\
  (total_in_frame color_at w h ->
   (fun e : Z * Z * Z => e.2) <$> evaluations result
   = (fun k => 4 * k) <$> seqZ 0 (w * h)).
Proof.
  intros Hs Hr result. subst result.
  pose proof Hs as (Hw & Hh & _).
  pose proof (surface_bitmap_length _ _ _ _ Hs) as Hlen.
  pose proof (ratio_grows w h r Hw Hh Hr) as Hgrow.
  destruct (decide (w = 0 \/ h = 0)) as [Hz | Hpos].
  - rewrite (render_empty color_at w h r v Hs) by tauto. cbn [evaluations]. split.
    + intros snapshot i j cursor _ Hin. now apply elem_of_nil in Hin.
    + intros _. rewrite seqZ_nil by nia. reflexivity.
  - assert (0 < w /\ 0 < h /\ 0 < r) as (Hw' & Hh' & Hr') by lia.
    rewrite (surface_imageData _ _ _ _ Hs Hw' Hh' Hr').
    assert (evaluations (render_with color_at v)
            = calls (run_body color_at w h (scan_order w h)
                       (mkLoop (bitmap (Viewport.canvas v)) 0 [])).1) as Hevals.
    { rewrite (render_run color_at w h r v Hs Hw' Hh' Hr').
      destruct (run_body color_at w h (scan_order w h) _) as [st [e|]];
        [reflexivity|].
      cbn [fst]. destruct (Viewport.set_imageData _ v); reflexivity. }
    rewrite Hevals. split.
    + intros snapshot i j cursor Hsnap Hin. apply Normal_inj in Hsnap. subst snapshot.
      cbn [img_data].
      destruct (run_body_calls_prefix color_at w h (scan_order w h)
                  (mkLoop (bitmap (Viewport.canvas v)) 0 [])) as [k Hk].
      rewrite Hk in Hin. cbn [calls index app] in Hin.
      apply with_cursor_elem in Hin as (k' & Hk' & ->).
      rewrite length_take, scan_order_length in Hk'.
      assert (Z.of_nat k' < w * h) by nia. lia.
    + intros Htot. apply total_in_frame_scan in Htot.
      destruct (run_body_total color_at w h (scan_order w h)
                  (mkLoop (bitmap (Viewport.canvas v)) 0 []) Htot)
        as (st & -> & _ & Hcalls & _).
      cbn [fst calls index app] in *. rewrite Hcalls.
      rewrite with_cursor_cursors, scan_order_length.
      do 2 f_equal. nia.
Qed.

Lemma render_writes_in_bounds_witness :
  let result := render_with gradient (example_viewport 2 2 2) in
  (forall snapshot i j cursor,
     Viewport.imageData (example_viewport 2 2 2) = Normal snapshot ->
     (i, j, cursor) ∈ evaluations result ->
     Z.of_nat (length (img_data snapshot)) = 4 * 2 * 2 * 2 * 2 /\
     0 <= cursor /\ cursor + 3 < 4 * 2 * 2 /\
     cursor + 3 < Z.of_nat (length (img_data snapshot))) /\
  (total_in_frame gradient 2 2 ->
   (fun e : Z * Z * Z => e.2) <$> evaluations result
   = (fun k => 4 * k) <$> seqZ 0 (2 * 2)).
Proof.
  apply (render_writes_in_bounds gradient 2 2 2 (example_viewport 2 2 2)).
  - surface_by_evaluation.
  - lia.
Defined.

(* ===================================================================== *)
(** ** Further properties of the code *)
(* ===================================================================== *)

(** *** The size of the backing store and the scaling never change *)

Lemma putImageData_geometry img c c' :
  putImageData img c = Normal c' ->
  canvas_width c' = canvas_width c /\ canvas_height c' = canvas_height c /\
  length (bitmap c') = length (bitmap c) /\
  scale_x c' = scale_x c /\ scale_y c' = scale_y c.
Proof.
  unfold putImageData. intros Hput. apply Normal_inj in Hput. subst c'.
  cbv [canvas_width canvas_height bitmap scale_x scale_y].
  fold (canvas_width c) (canvas_height c) (scale_x c) (scale_y c).
  repeat split. apply length_imap.
Qed.

Lemma perform_geometry v op :
  canvas_width (Viewport.canvas (perform v op)) = canvas_width (Viewport.canvas v) /\
  canvas_height (Viewport.canvas (perform v op)) = canvas_height (Viewport.canvas v) /\
  length (bitmap (Viewport.canvas (perform v op)))
    = length (bitmap (Viewport.canvas v)) /\
  scale_x (Viewport.canvas (perform v op)) = scale_x (Viewport.canvas v) /\
  scale_y (Viewport.canvas (perform v op)) = scale_y (Viewport.canvas v).
Proof.
  destruct op as [style | | img | color_at]; cbn [perform].
  - unfold Viewport.fill, fillRect, set_fillStyle, set_bitmap.
    destruct (css_color style); cbn [Viewport.canvas];
      cbv [canvas_width canvas_height bitmap scale_x scale_y];
      repeat split; apply length_imap.
  - unfold Viewport.clear, clearRect, set_bitmap. cbn [Viewport.canvas].
    cbv [canvas_width canvas_height bitmap scale_x scale_y].
    repeat split. apply length_imap.
  - unfold Viewport.set_imageData.
    destruct (putImageData img (Viewport.canvas v)) as [c' | e] eqn:Hput;
      [|repeat split; reflexivity].
    cbn [Viewport.canvas]. now apply putImageData_geometry in Hput.
  - unfold render_with.
    destruct (Viewport.imageData v) as [id | e]; [|repeat split; reflexivity].
    destruct (scan _ _ _ _) as [st [e|]]; [repeat split; reflexivity|].
    unfold Viewport.set_imageData.
    destruct (putImageData _ (Viewport.canvas v)) as [c' | e] eqn:Hput;
      [|repeat split; reflexivity].
    cbn [viewport_after Viewport.canvas]. now apply putImageData_geometry in Hput.
Qed.

Lemma perform_surface w h r v op :
  is_surface w h r v /\ is_scaled_by r v ->
  is_surface w h r (perform v op) /\ is_scaled_by r (perform v op).
Proof.
  intros [(Hw & Hh & Hr & Hsw & Hsh & Hcw & Hch & Hok) [Hsx Hsy]].
  destruct (perform_style v op) as [Hsw' Hsh'].
  destruct (perform_geometry v op) as (Hcw' & Hch' & Hlen' & Hsx' & Hsy').
  unfold is_surface, is_scaled_by, canvas_ok in *.
  rewrite Hsw', Hsh', Hcw', Hch', Hlen', Hsx', Hsy'. tauto.
Qed.

Lemma perform_all_surface w h r v ops :
  is_surface w h r v /\ is_scaled_by r v ->
  is_surface w h r (perform_all v ops) /\ is_scaled_by r (perform_all v ops).
Proof.
  revert v. induction ops as [| op ops IH]; intros v Hinv.
  - exact Hinv.
  - cbn [perform_all foldl]. apply IH. now apply perform_surface.
Qed.

(** X2: the operations keep a surface a surface: after any sequence of
    [fill], [clear], [imageData] assignments (of buffers of any size) and
    [render] calls, the styled size, the size of the backing store, the
    number of bytes of the bitmap and the scaling of the context are what
    the constructor made them. *)
Theorem operations_keep_surface w h r v ops :
  is_surface w h r v -> is_scaled_by r v ->
  is_surface w h r (perform_all v ops) /\ is_scaled_by r (perform_all v ops).
Proof. intros Hs Hsc. apply perform_all_surface. tauto. Qed.

Lemma operations_keep_surface_witness :
  is_surface 3 2 2
    (perform_all (example_viewport 3 2 2)
       [OpClear; OpRender gradient; OpSetImageData one_red_pixel; OpFill "red"]) /\
  is_scaled_by 2
    (perform_all (example_viewport 3 2 2)
       [OpClear; OpRender gradient; OpSetImageData one_red_pixel; OpFill "red"]).
Proof.
  apply (operations_keep_surface 3 2 2 (example_viewport 3 2 2)).
  - surface_by_evaluation.
  - split; vm_compute; reflexivity.
Defined.

(** *** The constructor *)

Lemma create_scaled c w h r v :
  Viewport.create (Some c) w h r = Normal v -> is_scaled_by r v.
Proof.
  unfold Viewport.create, Viewport.constructor.
  destruct (context2d c); [|discriminate]. intros Hv. apply Normal_inj in Hv.
  subst v.
  destruct (perform_geometry (Viewport.setSize w h r (Viewport.mk c)) (OpFill "white"))
    as (_ & _ & _ & Hsx & Hsy).
  cbn [perform] in Hsx, Hsy. unfold is_scaled_by. rewrite Hsx, Hsy, setSize_canvas.
  cbv [scale_x scale_y]. lia.
Qed.

(** X1: on a canvas that gives a 2d context, the constructor returns a
    viewport whose image data, read at once, has the size of the backing
    store, [(w * r) x (h * r)], and every byte equal to 255: each pixel is
    opaque white. *)
Theorem fresh_surface_white c w h r :
  context2d c = true -> 0 < w -> 0 < h -> 0 < r ->
  exists v,
    Viewport.create (Some c) w h r = Normal v /\
    is_scaled_by r v /\
    Viewport.imageData v =
    Normal (mkImageData (Z.to_nat (w * r)) (Z.to_nat (h * r))
              (replicate (4 * Z.to_nat (w * r) * Z.to_nat (h * r)) 255)).
Proof.
  intros Hctx Hw Hh Hr.
  destruct (create_surface c w h r Hctx) as (v & Hcreate & Hs & Hwhite & _);
    [lia | lia | lia |].
  exists v. split; [exact Hcreate|]. split; [exact (create_scaled _ _ _ _ _ Hcreate)|].
  rewrite (surface_imageData _ _ _ _ Hs Hw Hh Hr). now rewrite Hwhite.
Qed.

Lemma fresh_surface_white_witness :
  exists v,
    Viewport.create (Some empty_canvas) 3 2 2 = Normal v /\
    is_scaled_by 2 v /\
    Viewport.imageData v =
    Normal (mkImageData (Z.to_nat (3 * 2)) (Z.to_nat (2 * 2))
              (replicate (4 * Z.to_nat (3 * 2) * Z.to_nat (2 * 2)) 255)).
Proof.
  apply (fresh_surface_white empty_canvas 3 2 2); [reflexivity | lia | lia | lia].
Defined.

(** *** [fill] and [clear] *)

(** Repainting the rectangle of the whole canvas reaches every byte, when
    the scaling does not shrink. *)
Lemma repaint_whole_rect c (f : nat -> Z) n b :
  canvas_ok c -> 1 <= scale_x c -> 1 <= scale_y c ->
  bitmap c !! n = Some b ->
  repaint (fun x y ch old =>
             if in_rect c (Z.of_nat (canvas_width c)) (Z.of_nat (canvas_height c)) x y
             then f ch else old) c !! n
  = Some (f (n mod 4)%nat).
Proof.
  intros Hok Hsx Hsy Hb. rewrite repaint_lookup, Hb.
  assert (n < 4 * canvas_width c * canvas_height c)%nat as Hn.
  { rewrite <- Hok. now apply lookup_lt_Some in Hb. }
  destruct (byte_position _ _ _ Hn) as (Hx & Hy & _).
  unfold in_rect. revert Hx Hy.
  generalize ((n / 4) mod canvas_width c)%nat as x.
  generalize ((n / 4) / canvas_width c)%nat as y. intros y x Hx Hy.
  destruct (Z.ltb_spec (Z.of_nat x) (Z.of_nat (canvas_width c) * scale_x c)); [|nia].
  destruct (Z.ltb_spec (Z.of_nat y) (Z.of_nat (canvas_height c) * scale_y c)); [|nia].
  reflexivity.
Qed.

Lemma pixel_byte_lookup c x y k :
  canvas_ok c -> (x < canvas_width c)%nat -> (y < canvas_height c)%nat ->
  (k < 4)%nat ->
  exists b, bitmap c !! (4 * (y * canvas_width c + x) + k)%nat = Some b /\
            pixel_byte c x y k = b.
Proof.
  intros Hok Hx Hy Hk.
  destruct (lookup_lt_is_Some_2 (bitmap c) (4 * (y * canvas_width c + x) + k))
    as [b Hb]; [rewrite Hok; nia|].
  exists b. split; [exact Hb|]. unfold pixel_byte.
  destruct (Nat.ltb_spec x (canvas_width c)); [|lia].
  destruct (Nat.ltb_spec y (canvas_height c)); [|lia]. now rewrite Hb.
Qed.

(** X3: on a surface with pixel ratio at least one, [clear] sets every
    byte of every pixel of the backing store to 0 (transparent black),
    whatever was there. *)
Theorem clear_erases w h r v x y k :
  is_surface w h r v -> is_scaled_by r v -> 1 <= r ->
  (x < canvas_width (Viewport.canvas v))%nat ->
  (y < canvas_height (Viewport.canvas v))%nat -> (k < 4)%nat ->
  pixel_byte (Viewport.canvas (Viewport.clear v)) x y k = 0.
Proof.
  intros Hs [Hsx Hsy] Hr Hx Hy Hk. pose proof Hs as (_ & _ & _ & _ & _ & _ & _ & Hok).
  destruct (pixel_byte_lookup _ x y k Hok Hx Hy Hk) as (b & Hb & _).
  unfold Viewport.clear, clearRect, set_bitmap. cbn [Viewport.canvas].
  unfold pixel_byte. cbv [canvas_width canvas_height bitmap].
  fold (canvas_width (Viewport.canvas v)) (canvas_height (Viewport.canvas v)).
  destruct (Nat.ltb_spec x (canvas_width (Viewport.canvas v))); [|lia].
  destruct (Nat.ltb_spec y (canvas_height (Viewport.canvas v))); [|lia].
  rewrite (repaint_whole_rect _ (fun _ => 0) _ b Hok) by (assumption || lia).
  reflexivity.
Qed.

Lemma clear_erases_witness :
  pixel_byte (Viewport.canvas (Viewport.clear (example_viewport 3 2 2))) 5 3 3 = 0.
Proof.
  apply (clear_erases 3 2 2 (example_viewport 3 2 2) 5 3 3).
  - surface_by_evaluation.
  - split; vm_compute; reflexivity.
  - lia.
  - vm_compute. lia.
  - vm_compute. lia.
  - lia.
Defined.

Lemma fillRect_pixel c x y k :
  canvas_ok c -> 1 <= scale_x c -> 1 <= scale_y c ->
  (x < canvas_width c)%nat -> (y < canvas_height c)%nat -> (k < 4)%nat ->
  pixel_byte (fillRect (Z.of_nat (canvas_width c)) (Z.of_nat (canvas_height c)) c)
             x y k
  = color_byte (fillStyle c) k.
Proof.
  intros Hok Hsx Hsy Hx Hy Hk.
  destruct (pixel_byte_lookup c x y k Hok Hx Hy Hk) as (b & Hb & _).
  unfold fillRect, set_bitmap, pixel_byte. cbv [canvas_width canvas_height bitmap].
  fold (canvas_width c) (canvas_height c).
  destruct (Nat.ltb_spec x (canvas_width c)); [|lia].
  destruct (Nat.ltb_spec y (canvas_height c)); [|lia].
  rewrite (repaint_whole_rect c (color_byte (fillStyle c)) _ b Hok Hsx Hsy Hb).
  destruct (position_byte (canvas_width c) x y k Hx Hk) as (_ & _ & ->).
  reflexivity.
Qed.

Lemma set_fillStyle_color style col c :
  css_color style = Some col ->
  fillStyle (set_fillStyle style c) = col /\
  canvas_width (set_fillStyle style c) = canvas_width c /\
  canvas_height (set_fillStyle style c) = canvas_height c /\
  bitmap (set_fillStyle style c) = bitmap c /\
  scale_x (set_fillStyle style c) = scale_x c /\
  scale_y (set_fillStyle style c) = scale_y c.
Proof. intros Hcol. unfold set_fillStyle. rewrite Hcol. repeat split. Qed.

(** X4: on a surface with pixel ratio at least one, [fill] with one of
    the colour names white, black, red, lime and blue gives every pixel
    of the backing store the red, green and blue of that colour and alpha
    255, whatever was there. *)
Theorem fill_covers w h r v style x y :
  is_surface w h r v -> is_scaled_by r v -> 1 <= r ->
  style ∈ ["white"; "black"; "red"; "lime"; "blue"]%string ->
  (x < canvas_width (Viewport.canvas v))%nat ->
  (y < canvas_height (Viewport.canvas v))%nat ->
  let c := Viewport.canvas (Viewport.fill style v) in
  let named :=
    if String.eqb style "white" then (255, 255, 255)
    else if String.eqb style "black" then (0, 0, 0)
    else if String.eqb style "red" then (255, 0, 0)
    else if String.eqb style "lime" then (0, 255, 0)
    else (0, 0, 255) in
  pixel_byte c x y 0 = named.1.1 /\ pixel_byte c x y 1 = named.1.2 /\
  pixel_byte c x y 2 = named.2 /\ pixel_byte c x y 3 = 255.
Proof.
  intros Hs [Hsx Hsy] Hr Hstyle Hx Hy c named. subst c.
  pose proof Hs as (_ & _ & _ & _ & _ & _ & _ & Hok).
  assert (css_color style = Some named) as Hcol.
  { subst named. rewrite !elem_of_cons in Hstyle.
    destruct Hstyle as [-> | [-> | [-> | [-> | [-> | Hnil]]]]];
      [reflexivity.. | now apply elem_of_nil in Hnil]. }
  destruct (set_fillStyle_color style _ (Viewport.canvas v) Hcol)
    as (Hfs & Hcw & Hch & Hbm & Hsx' & Hsy').
  unfold Viewport.fill. cbn [Viewport.canvas].
  assert (forall k, (k < 4)%nat ->
            pixel_byte
              (fillRect (Z.of_nat (canvas_width (set_fillStyle style (Viewport.canvas v))))
                 (Z.of_nat (canvas_height (set_fillStyle style (Viewport.canvas v))))
                 (set_fillStyle style (Viewport.canvas v))) x y k
            = color_byte named k) as Hall.
  { intros k Hk. rewrite fillRect_pixel; [now rewrite Hfs | | | | | | exact Hk].
    - unfold canvas_ok. rewrite Hbm, Hcw, Hch. exact Hok.
    - lia.
    - lia.
    - now rewrite Hcw.
    - now rewrite Hch. }
  rewrite (Hall 0%nat), (Hall 1%nat), (Hall 2%nat), (Hall 3%nat) by lia.
  destruct named as [[red green] blue]. repeat split.
Qed.
Lemma fill_covers_witness :
  let c := Viewport.canvas (Viewport.fill "blue" (Viewport.clear (example_viewport 3 2 2))) in
  pixel_byte c 5 3 0 = 0 /\ pixel_byte c 5 3 1 = 0 /\
  pixel_byte c 5 3 2 = 255 /\ pixel_byte c 5 3 3 = 255.
Proof.
  apply (fill_covers 3 2 2 (Viewport.clear (example_viewport 3 2 2)) "blue" 5 3).
  - surface_by_evaluation.
  - split; vm_compute; reflexivity.
  - lia.
  - rewrite !elem_of_cons. do 4 right. left. reflexivity.
  - vm_compute. lia.
  - vm_compute. lia.
Defined.
(** *** Reading and writing the image data *)

(** X5: on a surface with pixels, a buffer of bytes of the size of the
    backing store, all of whose pixels are opaque, that is assigned to
    [imageData] is what [imageData] reads next: same width, height and
    bytes. *)
Theorem set_then_get w h r v img :
  is_surface w h r v -> 0 < w -> 0 < h -> 0 < r ->
  img_width img = canvas_width (Viewport.canvas v) ->
  img_height img = canvas_height (Viewport.canvas v) ->
  length (img_data img) = (4 * img_width img * img_height img)%nat ->
  bytes_ok (img_data img) -> is_opaque (img_data img) ->
  exists v',
    Viewport.set_imageData img v = Normal v' /\
    Viewport.imageData v' = Normal img.
Proof.
  intros Hs Hw Hh Hr Hiw Hih Hlen Hbytes Hopaque.
  pose proof Hs as (_ & _ & _ & _ & _ & Hcw & Hch & Hok).
  destruct img as [iw ih d]. cbn [img_width img_height img_data] in *.
  subst iw ih. rewrite Hcw, Hch in *.
  destruct (surface_set_imageData w h r v d Hs) as (v' & Hset & Hs' & Hbitmap & _).
  { rewrite Hlen. unfold canvas_ok in Hok. rewrite Hok, Hcw, Hch. reflexivity. }
  exists v'. split; [exact Hset|].
  rewrite (surface_imageData _ _ _ _ Hs' Hw Hh Hr). now rewrite Hbitmap.
Qed.
Lemma set_then_get_witness :
  exists v',
    Viewport.set_imageData (mkImageData 1 1 [9; 8; 7; 255]) (example_viewport 1 1 1)
      = Normal v' /\
    Viewport.imageData v' = Normal (mkImageData 1 1 [9; 8; 7; 255]).
Proof.
  apply (set_then_get 1 1 1 (example_viewport 1 1 1) (mkImageData 1 1 [9; 8; 7; 255]));
    try lia; try reflexivity.
  - surface_by_evaluation.
  - intros p Hp. destruct p as [| p]; [reflexivity | cbn in Hp; lia].
Defined.
(** X6: the image data read from a surface is a snapshot that later
    operations do not disturb: after any sequence of [fill], [clear],
    [imageData] assignments and [render] calls, assigning the snapshot to
    [imageData] gives the backing store the bytes it had when the snapshot
    was read. *)
Theorem snapshot_restores w h r v snapshot ops :
  is_surface w h r v -> is_scaled_by r v ->
  Viewport.imageData v = Normal snapshot ->
  exists v',
    Viewport.set_imageData snapshot (perform_all v ops) = Normal v' /\
    bitmap (Viewport.canvas v') = bitmap (Viewport.canvas v) /\
    is_surface w h r v'.
Proof.
  intros Hs Hsc Hget.
  destruct (perform_all_surface w h r v ops (conj Hs Hsc)) as [Hs' _].
  pose proof Hs as (Hw & Hh & Hr & _ & _ & Hcw & Hch & Hok).
  destruct (decide (w = 0 \/ h = 0 \/ r = 0)) as [Hz | Hpos].
  { rewrite (surface_imageData_empty _ _ _ _ Hs Hz) in Hget. discriminate. }
  rewrite (surface_imageData _ _ _ _ Hs) in Hget by lia.
  apply Normal_inj in Hget. subst snapshot.
  destruct (surface_set_imageData w h r (perform_all v ops)
              (bitmap (Viewport.canvas v)) Hs') as (v' & Hset & Hs'' & Hbitmap & _).
  { pose proof Hs' as (_ & _ & _ & _ & _ & Hcw' & Hch' & Hok').
    unfold canvas_ok in *. rewrite Hok, Hok', Hcw, Hch, Hcw', Hch'. reflexivity. }
  exists v'. split; [exact Hset|]. split; [exact Hbitmap | exact Hs''].
Qed.

Lemma snapshot_restores_witness :
  exists v',
    Viewport.set_imageData
      (mkImageData 2 2 (replicate 16 255))
      (perform_all (example_viewport 2 2 1) [OpRender gradient; OpClear]) = Normal v' /\
    bitmap (Viewport.canvas v') = bitmap (Viewport.canvas (example_viewport 2 2 1)) /\
    is_surface 2 2 1 v'.
Proof.
  apply (snapshot_restores 2 2 1 (example_viewport 2 2 1)).
  - surface_by_evaluation.
  - split; vm_compute; reflexivity.
  - vm_compute. reflexivity.
Defined.

(** *** [render] *)

(** X7: on a surface without pixels (a width, a height or a pixel ratio
    of zero) reading the image data throws [IndexSizeError], and so does
    [render], before it evaluates any colour; the viewport is unchanged. *)
Theorem empty_surface_render color_at w h r v :
  is_surface w h r v -> w = 0 \/ h = 0 \/ r = 0 ->
  Viewport.imageData v = Throw (DOMException "IndexSizeError") /\
  render_with color_at v
  = mkRendered v (Throw (DOMException "IndexSizeError")) [].
Proof.
  intros Hs Hz. split.
  - exact (surface_imageData_empty _ _ _ _ Hs Hz).
  - exact (render_empty color_at w h r v Hs Hz).
Qed.

Lemma empty_surface_render_witness :
  Viewport.imageData (example_viewport 0 5 2) = Throw (DOMException "IndexSizeError") /\
  render_with gradient (example_viewport 0 5 2)
  = mkRendered (example_viewport 0 5 2) (Throw (DOMException "IndexSizeError")) [].
Proof.
  apply (empty_surface_render gradient 0 5 2 (example_viewport 0 5 2)).
  - surface_by_evaluation.
  - left. reflexivity.
Defined.

(** X8: one call of [render] evaluates the colour once per logical pixel,
    [w * h] times, for every pixel ratio; this is the number of pixels of
    the backing store exactly when the ratio is one or the surface has no
    pixel. *)
Theorem render_evaluates_logical_pixels color_at w h r v :
  is_surface w h r v -> 1 <= r -> total_in_frame color_at w h ->
  Z.of_nat (length (evaluations (render_with color_at v))) = w * h /\
  Z.of_nat (canvas_width (Viewport.canvas v) * canvas_height (Viewport.canvas v))
    = w * h * r * r /\
  (w * h = w * h * r * r <-> r = 1 \/ w * h = 0).
Proof.
  intros Hs Hr Htot. pose proof Hs as (Hw & Hh & _ & _ & _ & Hcw & Hch & _).
  split; [|split].
  - pose proof (total_in_frame_scan _ _ _ Htot) as Htot'.
    destruct (decide (w = 0 \/ h = 0)) as [Hz | Hpos].
    + rewrite (render_empty color_at w h r v Hs) by tauto. cbn. nia.
    + destruct (render_normal color_at w h r v Hs) as (v' & -> & _);
        [lia | lia | lia | exact Htot' |].
      cbn [evaluations]. rewrite with_cursor_length, scan_order_length. nia.
  - rewrite Hcw, Hch. nia.
  - split.
    + intros Heq. destruct (decide (w * h = 0)) as [Hz | Hnz]; [now right|].
      left. assert (0 < w * h) by nia. nia.
    + intros [-> | Hz]; [lia | rewrite Hz; lia].
Qed.

Lemma render_evaluates_logical_pixels_witness :
  Z.of_nat (length (evaluations (render_with gradient (example_viewport 3 2 2))))
    = 3 * 2 /\
  Z.of_nat (canvas_width (Viewport.canvas (example_viewport 3 2 2))
            * canvas_height (Viewport.canvas (example_viewport 3 2 2)))
    = 3 * 2 * 2 * 2 /\
  (3 * 2 = 3 * 2 * 2 * 2 <-> 2 = 1 \/ 3 * 2 = 0).
Proof.
  apply (render_evaluates_logical_pixels gradient 3 2 2 (example_viewport 3 2 2)).
  - surface_by_evaluation.
  - lia.
  - intros x y _ _. eexists. reflexivity.
Defined.

(** X11: whatever the viewport and the colour computation, one call of
    [render] assigns [imageData] at most once: exactly once, with a buffer
    of the width and height of the canvas, when it ends normally, and not
    at all, leaving the viewport as it was, when it ends with an
    exception. *)
Theorem render_commits_once color_at v :
  let result := render_with color_at v in
  (outcome result = Normal tt ->
   exists B,
     committed_since v (viewport_after result) = [B] /\
     img_width B = canvas_width (Viewport.canvas v) /\
     img_height B = canvas_height (Viewport.canvas v)) /\
  (forall e, outcome result = Throw e ->
     viewport_after result = v /\
     committed_since v (viewport_after result) = []).
Proof.
  cbv zeta. unfold render_with, Viewport.imageData, getImageData.
  destruct ((canvas_width (Viewport.canvas v) =? 0)%nat
            || (canvas_height (Viewport.canvas v) =? 0)%nat)%bool.
  - cbn [outcome viewport_after]. split; [discriminate|].
    intros e _. split; [reflexivity | apply committed_since_same].
  - destruct (scan _ _ _ _) as [st [e|]].
    + cbn [outcome viewport_after]. split; [discriminate|].
      intros e' _. split; [reflexivity | apply committed_since_same].
    + cbn [img_width img_height]. unfold Viewport.set_imageData, putImageData.
      cbn [outcome viewport_after]. split; [|discriminate].
      intros _. eexists. split.
      * apply committed_since_app. cbn [Viewport.canvas committed]. reflexivity.
      * split; reflexivity.
Qed.

(** *** Bytes stay bytes *)

Lemma bytes_ok_lookup (d : list Z) :
  bytes_ok d <-> forall n b, d !! n = Some b -> 0 <= b <= 255.
Proof.
  unfold bytes_ok. rewrite forallb_forall. split.
  - intros Hall n b Hb. apply list_elem_of_lookup_2, list_elem_of_In in Hb.
    specialize (Hall b Hb). unfold is_byte in Hall. lia.
  - intros Hall b Hin. apply list_elem_of_In, list_elem_of_lookup_1 in Hin as [n Hn].
    specialize (Hall n b Hn). unfold is_byte. lia.
Qed.

Lemma ToUint8Clamp_byte v : 0 <= ToUint8Clamp v <= 255.
Proof. unfold ToUint8Clamp. lia. Qed.

Lemma array_set_bytes d k v : bytes_ok d -> bytes_ok (array_set d k v).
Proof.
  rewrite !bytes_ok_lookup. intros Hd n b. unfold array_set.
  destruct (0 <=? k); [|apply Hd].
  destruct (decide (n = Z.to_nat k)) as [-> | Hne].
  - intros Hb. apply list_lookup_insert_Some in Hb as [(_ & <- & _) | (Hne & _)];
      [apply ToUint8Clamp_byte | congruence].
  - rewrite list_lookup_insert_ne by congruence. apply Hd.
Qed.

Lemma body_bytes color_at nx ny i j st :
  bytes_ok (data st) -> bytes_ok (data (body color_at nx ny i j st).1).
Proof.
  intros Hd. unfold body.
  destruct (color_at i j nx ny) as [[[r g] b] | e]; cbn [fst data]; [|exact Hd].
  now repeat apply array_set_bytes.
Qed.

Lemma run_body_bytes color_at nx ny ps st :
  bytes_ok (data st) -> bytes_ok (data (run_body color_at nx ny ps st).1).
Proof.
  revert st. induction ps as [| [i j] ps IH]; intros st Hd; [exact Hd|].
  cbn [run_body]. pose proof (body_bytes color_at nx ny i j st Hd) as Hb.
  destruct (body color_at nx ny i j st) as [st1 [e|]]; cbn [fst] in *;
    [exact Hb | now apply IH].
Qed.

Lemma scan_bytes color_at nx ny st :
  bytes_ok (data st) -> bytes_ok (data (scan color_at nx ny st).1).
Proof.
  intros Hd. destruct nx as [nx|], ny as [ny|]; try exact Hd.
  rewrite scan_run. now apply run_body_bytes.
Qed.

Lemma pixel_byte_byte c x y k : bytes_ok (bitmap c) -> 0 <= pixel_byte c x y k <= 255.
Proof.
  intros Hd. unfold pixel_byte.
  destruct ((x <? canvas_width c)%nat && (y <? canvas_height c)%nat); [|lia].
  destruct (bitmap c !! _) as [b|] eqn:Hb; cbn; [|lia].
  exact (proj1 (bytes_ok_lookup _) Hd _ _ Hb).
Qed.

Lemma getImageData_bytes sw sh c id :
  bytes_ok (bitmap c) -> getImageData sw sh c = Normal id -> bytes_ok (img_data id).
Proof.
  intros Hd. unfold getImageData. destruct ((sw =? 0)%nat || (sh =? 0)%nat)%bool;
    [discriminate|].
  intros Hid. apply Normal_inj in Hid. subst id. cbn [img_data].
  apply bytes_ok_lookup. intros n b Hb. rewrite list_lookup_fmap in Hb.
  destruct (seq 0 (4 * sw * sh) !! n) as [m|]; [|discriminate].
  cbn in Hb. injection Hb as <-. now apply pixel_byte_byte.
Qed.

Lemma putImageData_bytes img c c' :
  bytes_ok (bitmap c) -> bytes_ok (img_data img) ->
  putImageData img c = Normal c' -> bytes_ok (bitmap c').
Proof.
  intros Hd Himg Hput. unfold putImageData in Hput. apply Normal_inj in Hput.
  subst c'. cbv [bitmap]. fold (bitmap c). apply bytes_ok_lookup. intros n b Hb.
  rewrite repaint_lookup in Hb.
  destruct (bitmap c !! n) as [old|] eqn:Hold; [|discriminate].
  pose proof (proj1 (bytes_ok_lookup _) Hd _ _ Hold) as Hrange.
  cbn in Hb. injection Hb as <-.
  destruct (_ && _); [|exact Hrange].
  destruct (img_data img !! _) as [x|] eqn:Hx; cbn; [|exact Hrange].
  exact (proj1 (bytes_ok_lookup _) Himg _ _ Hx).
Qed.

(** X10: whatever channel values the colour computation returns, below 0
    or above 255 included, one call of [render] on a backing store of
    bytes leaves a backing store of bytes, and every buffer it commits
    holds only bytes: each stored value is clamped to 0..255. *)
Theorem render_stores_bytes color_at v :
  bytes_ok (bitmap (Viewport.canvas v)) ->
  let result := render_with color_at v in
  bytes_ok (bitmap (Viewport.canvas (viewport_after result))) /\
  forall B, B ∈ committed_since v (viewport_after result) -> bytes_ok (img_data B).
Proof.
  intros Hd. cbv zeta. unfold render_with.
  destruct (Viewport.imageData v) as [id | e] eqn:Hget.
  - pose proof (getImageData_bytes _ _ _ _ Hd Hget) as Hid.
    pose proof (scan_bytes color_at (Viewport.width v) (Viewport.height v)
                  (mkLoop (img_data id) 0 []) Hid) as Hscan.
    destruct (scan _ _ _ _) as [st [e|]]; cbn [fst] in Hscan.
    + cbn [viewport_after]. split; [exact Hd|]. rewrite committed_since_same.
      intros B HB. now apply elem_of_nil in HB.
    + unfold Viewport.set_imageData.
      destruct (putImageData _ (Viewport.canvas v)) as [c' | e] eqn:Hput.
      * cbn [viewport_after Viewport.canvas]. split.
        -- exact (putImageData_bytes (mkImageData _ _ (data st)) _ _ Hd Hscan Hput).
        -- intros B HB. unfold putImageData in Hput. apply Normal_inj in Hput.
           subst c'. unfold committed_since in HB. cbn [Viewport.canvas committed] in HB.
           rewrite drop_app_length in HB. apply list_elem_of_singleton in HB.
           subst B. exact Hscan.
      * cbn [viewport_after]. split; [exact Hd|]. rewrite committed_since_same.
        intros B HB. now apply elem_of_nil in HB.
  - cbn [viewport_after]. split; [exact Hd|]. rewrite committed_since_same.
    intros B HB. now apply elem_of_nil in HB.
Qed.

Lemma render_stores_bytes_witness :
  let result := render_with wild_color (example_viewport 2 2 1) in
  bytes_ok (bitmap (Viewport.canvas (viewport_after result))) /\
  forall B,
    B ∈ committed_since (example_viewport 2 2 1) (viewport_after result) ->
    bytes_ok (img_data B).
Proof.
  apply (render_stores_bytes wild_color (example_viewport 2 2 1)).
  vm_compute. reflexivity.
Defined.

(** *** [setup] *)

(** X9: [setup] ends normally exactly when the page has the canvas, the
    canvas gives a 2d context and the page has the render button.  The
    module variable [viewport] is assigned exactly when the first two
    hold, so also when [setup] throws for a missing button.  When it is
    assigned and the ratio of the window is not negative, the viewport is
    a 640 x 480 surface whose ratio is that of the window, or one when
    the window has none or has zero; the ratio is at least one unless the
    window gives a negative one, and the surface can be read. *)
Theorem setup_outcomes doc :
  ((setup doc).2 = Normal tt <->
   exists c, canvas_element doc = Some c /\ context2d c = true
             /\ render_button doc = true) /\
  (is_Some (setup doc).1 <->
   exists c, canvas_element doc = Some c /\ context2d c = true) /\
  devicePixelRatio doc <> 0 /\
  forall v,
    (setup doc).1 = Some v -> 0 <= devicePixelRatio doc ->
    is_surface 640 480 (devicePixelRatio doc) v /\
    is_scaled_by (devicePixelRatio doc) v /\
    exists snapshot, Viewport.imageData v = Normal snapshot.
Proof.
  assert (devicePixelRatio doc <> 0) as Hratio.
  { unfold devicePixelRatio. destruct (window_devicePixelRatio doc) as [r|]; [|lia].
    destruct (Z.eqb_spec r 0); lia. }
  unfold setup. destruct (canvas_element doc) as [c|] eqn:Hc.
  - unfold Viewport.create, Viewport.constructor.
    destruct (context2d c) eqn:Hctx.
    + destruct (render_button doc) eqn:Hbtn; cbn [fst snd].
      all: split; [split; [intros; try discriminate; eauto
                          | intros (c' & [= <-] & _ & Hb); congruence]|].
      all: split; [split; [intros _; eauto | intros _; eauto]|].
      all: split; [exact Hratio|].
      all: intros v [= <-] Hnonneg.
      all: destruct (create_surface c 640 480 (devicePixelRatio doc) Hctx)
             as (v & Hcreate & Hs & _); [lia | lia | lia |].
      all: pose proof (create_scaled _ _ _ _ _ Hcreate) as Hsc.
      all: unfold Viewport.create, Viewport.constructor in Hcreate.
      all: rewrite Hctx in Hcreate; apply Normal_inj in Hcreate; subst v.
      all: split; [exact Hs|]; split; [exact Hsc|].
      all: eexists; apply (surface_imageData _ _ _ _ Hs); lia.
    + cbn [fst snd]. split; [split; [discriminate|]|].
      { intros (c' & [= <-] & Hctx' & _). congruence. }
      split; [split; [intros [? [=]] | intros (c' & [= <-] & Hctx'); congruence]|].
      split; [exact Hratio|]. intros v [=].
  - cbn [fst snd]. split; [split; [discriminate | intros (c' & [=] & _)]|].
    split; [split; [intros [? [=]] | intros (c' & [=] & _)]|].
    split; [exact Hratio|]. intros v [=].
Qed.

(** *** The first exception ends the frame *)

Lemma with_cursor_snoc start ps p :
  with_cursor start (ps ++ [p])
  = with_cursor start ps ++ [(p.1, p.2, start + 4 * Z.of_nat (length ps))].
Proof.
  unfold with_cursor. rewrite imap_app. cbn. do 4 f_equal. lia.
Qed.

(** X12: when the colour computation throws at a coordinate and ends
    normally at every coordinate before it in scan order, [render] ends
    with that very exception, has evaluated the colour at the coordinates
    up to and including that one and at no later one, and leaves the
    viewport as it was. *)
Theorem render_stops_at_first_failure color_at w h r v k x y e :
  is_surface w h r v -> 1 <= r ->
  scan_order w h !! k = Some (x, y) ->
  color_at x y w h = Throw e ->
  (forall k' i j, (k' < k)%nat -> scan_order w h !! k' = Some (i, j) ->
     exists rgb, color_at i j w h = Normal rgb) ->
  render_with color_at v
  = mkRendered v (Throw e) (with_cursor 0 (take (S k) (scan_order w h))).
Proof.
  intros Hs Hr Hk Hthrow Hbefore.
  pose proof (list_elem_of_lookup_2 _ _ _ Hk) as Hin.
  apply scan_order_elem in Hin as [Hx Hy].
  rewrite (render_run color_at w h r v Hs) by lia.
  rewrite <- (take_drop_middle _ _ _ Hk) at 1.
  rewrite run_body_app.
  assert (total_on color_at w h (take k (scan_order w h))) as Htot.
  { intros i j Hij. apply list_elem_of_lookup_1 in Hij as [k' Hk'].
    apply lookup_take_Some in Hk' as [Hk' Hlt]. exact (Hbefore k' i j Hlt Hk'). }
  destruct (run_body_total color_at w h _ (mkLoop (bitmap (Viewport.canvas v)) 0 []) Htot)
    as (st & -> & Hidx & Hcalls & _).
  cbn [run_body index calls app] in *. rewrite (body_throw _ _ _ _ _ _ _ Hthrow).
  f_equal. cbn [calls]. rewrite Hcalls, Hidx.
  assert (length (take k (scan_order w h)) = k) as Hlen.
  { rewrite length_take. apply lookup_lt_Some in Hk. lia. }
  rewrite (take_S_r _ _ _ Hk), with_cursor_snoc, Hlen. cbn [fst snd].
  reflexivity.
Qed.

Lemma render_stops_at_first_failure_witness :
  render_with failing_color (example_viewport 2 2 2)
  = mkRendered (example_viewport 2 2 2) (Throw (Error "no colour here"))
      (with_cursor 0 (take 4 (scan_order 2 2))).
Proof.
  apply (render_stops_at_first_failure failing_color 2 2 2 (example_viewport 2 2 2)
           3 1 0 (Error "no colour here")).
  - surface_by_evaluation.
  - lia.
  - vm_compute. reflexivity.
  - reflexivity.
  - intros k' i j Hlt Hk'.
    destruct k' as [| [| [| k']]]; [| | | lia];
      vm_compute in Hk'; injection Hk' as <- <-; eexists; reflexivity.
Defined.

(** *** The image at ratio one *)

(** X13: on a surface with pixel ratio one whose pixels are all opaque,
    the frame covers the image: after one call of [render] the pixel in
    column [x] of row [h - 1 - y] of the committed image (rows counted
    from the top) has the clamped red, green and blue computed for the
    coordinate [(x, y)] and alpha 255, and the committed image is what
    the surface reads back. *)
Theorem render_ratio_one_image color_at w h v x y rgb :
  is_surface w h 1 v ->
  is_opaque (bitmap (Viewport.canvas v)) ->
  total_in_frame color_at w h ->
  0 <= x < w -> 0 <= y < h ->
  color_at x y w h = Normal rgb ->
  exists B,
    committed_since v (viewport_after (render_with color_at v)) = [B] /\
    img_width B = Z.to_nat w /\ img_height B = Z.to_nat h /\
    Viewport.imageData (viewport_after (render_with color_at v)) = Normal B /\
    image_pixel B x (h - 1 - y) =
    [Some (ToUint8Clamp (channel rgb 0)); Some (ToUint8Clamp (channel rgb 1));
     Some (ToUint8Clamp (channel rgb 2)); Some 255].
Proof.
  intros Hs Hopaque Htot Hx Hy Hc.
  pose proof (total_in_frame_scan _ _ _ Htot) as Htot'.
  destruct (render_normal color_at w h 1 v Hs) as (v' & -> & Hs' & Hbitmap & Hcomm);
    [lia | lia | lia | exact Htot' |].
  cbn [viewport_after].
  pose proof (cursor_bounds w h x y Hx Hy) as Hcur.
  assert (Z.of_nat (length (bitmap (Viewport.canvas v))) = 4 * w * h) as Hlen.
  { rewrite (surface_bitmap_length _ _ _ _ Hs). lia. }
  assert (array_get (bitmap (Viewport.canvas v)) (4 * ((h - 1 - y) * w + x) + 3)
          = Some 255) as Halpha.
  { replace (4 * ((h - 1 - y) * w + x) + 3)
      with (Z.of_nat (4 * Z.to_nat ((h - 1 - y) * w + x) + 3)) by lia.
    rewrite array_get_of_nat. apply Hopaque. lia. }
  eexists. split; [exact (committed_since_app _ _ _ Hcomm)|].
  cbn [img_width img_height]. rewrite !Z.mul_1_r.
  split; [reflexivity|]. split; [reflexivity|]. split.
  { rewrite (surface_imageData _ _ _ _ Hs') by lia. rewrite !Z.mul_1_r.
    now rewrite Hbitmap. }
  unfold image_pixel. cbn [img_width img_data].
  replace ((h - 1 - y) * (Z.of_nat (Z.to_nat w) * 4) + x * 4)
    with (4 * ((h - 1 - y) * w + x)) by lia.
  rewrite <- (Z.add_0_r (4 * ((h - 1 - y) * w + x))) at 1.
  rewrite !(frame_get_written color_at w h _ x y rgb _ Htot' Hx Hy Hc) by lia.
  rewrite frame_get_other.
  - rewrite Halpha.
    destruct (array_get_lt_Some (bitmap (Viewport.canvas v))
                (4 * ((h - 1 - y) * w + x) + 0)) as [b0 ->]; [lia|].
    destruct (array_get_lt_Some (bitmap (Viewport.canvas v))
                (4 * ((h - 1 - y) * w + x) + 1)) as [b1 ->]; [lia|].
    destruct (array_get_lt_Some (bitmap (Viewport.canvas v))
                (4 * ((h - 1 - y) * w + x) + 2)) as [b2 ->]; [lia|].
    reflexivity.
  - right. rewrite <- Z.add_mod_idemp_l by lia.
    rewrite Z.mul_comm, Z.mod_mul by lia. reflexivity.
Qed.
Lemma render_ratio_one_image_witness :
  exists B,
    committed_since (Viewport.fill "blue" (example_viewport 2 2 1))
      (viewport_after
         (render_with gradient (Viewport.fill "blue" (example_viewport 2 2 1))))
      = [B] /\
    img_width B = Z.to_nat 2 /\ img_height B = Z.to_nat 2 /\
    Viewport.imageData
      (viewport_after
         (render_with gradient (Viewport.fill "blue" (example_viewport 2 2 1))))
      = Normal B /\
    image_pixel B 1 (2 - 1 - 0) =
    [Some (ToUint8Clamp (channel (127, 0, 51) 0));
     Some (ToUint8Clamp (channel (127, 0, 51) 1));
     Some (ToUint8Clamp (channel (127, 0, 51) 2)); Some 255].
Proof.
  apply (render_ratio_one_image gradient 2 2
           (Viewport.fill "blue" (example_viewport 2 2 1)) 1 0 (127, 0, 51)).
  - surface_by_evaluation.
  - intros p Hp.
    assert (length (bitmap (Viewport.canvas (Viewport.fill "blue" (example_viewport 2 2 1))))
            = 16%nat) as Hlen by (vm_compute; reflexivity).
    rewrite Hlen in Hp.
    do 4 (destruct p as [| p]; [reflexivity|]). lia.
  - intros x y _ _. eexists. reflexivity.
  - lia.
  - lia.
  - vm_compute. reflexivity.
Defined.
(** *** The picture of the page *)

(** On the page's frame of 640 x 480 the gradient has blue 51 and its red
    and green are bytes (checked column by column and row by row). *)
Lemma gradient_page_channels i j :
  0 <= i < 640 -> 0 <= j < 480 ->
  exists red green,
    gradient i j 640 480 = Normal (red, green, 51) /\
    0 <= red <= 255 /\ 0 <= green <= 255.
Proof.
  intros Hi Hj.
  assert (forallb (fun i => is_byte (Math_trunc (255.99 * (float_of_Z i / float_of_Z 640))))
            (seqZ 0 640) = true) as Hred by (vm_compute; reflexivity).
  assert (forallb (fun j => is_byte (Math_trunc (255.99 * (float_of_Z j / float_of_Z 480))))
            (seqZ 0 480) = true) as Hgreen by (vm_compute; reflexivity).
  rewrite forallb_forall in Hred, Hgreen.
  specialize (Hred i). specialize (Hgreen j).
  rewrite <- list_elem_of_In, elem_of_seqZ in Hred, Hgreen.
  specialize (Hred ltac:(lia)). specialize (Hgreen ltac:(lia)).
  unfold is_byte in Hred, Hgreen.
  eexists _, _. split; [unfold gradient; reflexivity|]. lia.
Qed.

(** X14: for every coordinate of the page's 640 x 480 frame the gradient
    written in [render] ends normally with blue 51 and with red and green
    between 0 and 255, so the clamping of the byte array never changes a
    value the page stores. *)
Theorem gradient_page_in_range i j :
  0 <= i < 640 -> 0 <= j < 480 ->
  exists red green,
    gradient i j 640 480 = Normal (red, green, 51) /\
    0 <= red <= 255 /\ 0 <= green <= 255 /\
    ToUint8Clamp red = red /\ ToUint8Clamp green = green.
Proof.
  intros Hi Hj.
  destruct (gradient_page_channels i j Hi Hj) as (red & green & Hg & Hr & Hgr).
  exists red, green. unfold ToUint8Clamp. repeat split; try assumption; lia.
Qed.

Lemma gradient_page_in_range_witness :
  exists red green,
    gradient 320 240 640 480 = Normal (red, green, 51) /\
    0 <= red <= 255 /\ 0 <= green <= 255 /\
    ToUint8Clamp red = red /\ ToUint8Clamp green = green.
Proof. apply (gradient_page_in_range 320 240); lia. Defined.

(** X15: on a page with the canvas (giving a 2d context), the render
    button and a device pixel ratio of one (or none, or zero), [setup]
    followed by one [render] ends normally and commits one 640 x 480
    image, which is also what the surface then shows: its pixel in column
    [x] of row [479 - y] is the colour the gradient computes for
    [(x, y)], with alpha 255. *)
Theorem page_picture doc c :
  canvas_element doc = Some c -> context2d c = true ->
  render_button doc = true -> devicePixelRatio doc = 1 ->
  exists v B,
    setup doc = (Some v, Normal tt) /\
    outcome (render v) = Normal tt /\
    committed_since v (viewport_after (render v)) = [B] /\
    img_width B = 640%nat /\ img_height B = 480%nat /\
    forall x y, 0 <= x < 640 -> 0 <= y < 480 ->
      exists red green,
        gradient x y 640 480 = Normal (red, green, 51) /\
        image_pixel B x (479 - y) = [Some red; Some green; Some 51; Some 255].
Proof.
  intros Hc Hctx Hbtn Hratio.
  destruct (create_surface c 640 480 1 Hctx) as (v & Hcreate & _);
    [lia | lia | lia |].
  destruct (fresh_render_pixel gradient c 640 480 v Hcreate)
    as (B & Hout & Hcomm & Hwidth & Hheight & Hpixel);
    [lia | lia | apply gradient_total |].
  exists v, B. unfold setup. rewrite Hc, Hratio, Hcreate, Hbtn.
  split; [reflexivity|]. split; [exact Hout|]. split; [exact Hcomm|].
  split; [exact Hwidth|]. split; [exact Hheight|].
  intros x y Hx Hy.
  destruct (gradient_page_channels x y Hx Hy) as (red & green & Hg & Hr & Hgr).
  exists red, green. split; [exact Hg|].
  replace (479 - y) with (480 - 1 - y) by lia.
  rewrite (Hpixel x y (red, green, 51) Hx Hy Hg).
  change (channel (red, green, 51) 0) with red.
  change (channel (red, green, 51) 1) with green.
  change (channel (red, green, 51) 2) with 51.
  change (ToUint8Clamp 51) with 51.
  assert (ToUint8Clamp red = red) as -> by (unfold ToUint8Clamp; lia).
  assert (ToUint8Clamp green = green) as -> by (unfold ToUint8Clamp; lia).
  reflexivity.
Qed.

Lemma page_picture_witness :
  exists v B,
    setup example_page = (Some v, Normal tt) /\
    outcome (render v) = Normal tt /\
    committed_since v (viewport_after (render v)) = [B] /\
    img_width B = 640%nat /\ img_height B = 480%nat /\
    forall x y, 0 <= x < 640 -> 0 <= y < 480 ->
      exists red green,
        gradient x y 640 480 = Normal (red, green, 51) /\
        image_pixel B x (479 - y) = [Some red; Some green; Some 51; Some 255].
Proof. apply (page_picture example_page empty_canvas); reflexivity. Defined.
